(** * VoiceSearch: a model of [src/components/VoiceSearch.tsx]

    The component keeps four pieces of React state (query, listening flag,
    result list, loading flag) plus the speech-recognition handle, derives six
    deep links from a query by string templating, and talks to the browser
    through toasts, the console, timers, speech recognition and speech
    synthesis.

    Strings are JavaScript strings: finite sequences of UTF-16 code units.
    The built-ins the component calls ([trim], [replace(/\s+/g, '_')],
    [encodeURIComponent], template literals, number-to-string) are written
    out after ECMA-262.  Effects are recorded in a trace, and the [await] of
    [handleSearch] is a pending timer whose continuation the event loop runs
    when the timer fires.

    A state setter takes effect where it is called.  React applies it at the
    next render, but no handler reads a cell it has just set, and the
    closures the handlers capture ([handleSearch], [generateSearchResults],
    [speakResult]) read no state, so the worlds reached are the same. *)

From Stdlib Require Import List NArith QArith String Ascii Bool Lia DecimalString.
Import ListNotations.

Local Open Scope N_scope.
Local Open Scope list_scope.

(** ** JavaScript strings and the built-ins used by the component *)

Module JS.

(** A string is a list of UTF-16 code units, each a number below 2^16. *)
Definition code_unit := N.
Definition jsstring := list code_unit.

Definition is_code_unit (c : code_unit) : bool := c <? 65536.

(** A source-text literal; every literal of the component is ASCII. *)
Fixpoint lit (s : string) : jsstring :=
  match s with
  | EmptyString => []
  | String a r => N_of_ascii a :: lit r
  end.

(** [Number::toString] on a non-negative integer (here: an array length). *)
Definition numberToString (n : nat) : jsstring :=
  lit (NilZero.string_of_uint (Nat.to_uint n)).

(** ToBoolean on a string: only the empty string is falsy. *)
Definition truthy (s : jsstring) : bool :=
  match s with [] => false | _ :: _ => true end.

(** WhiteSpace and LineTerminator of ECMA-262; the class [\s] of a regular
    expression is the same set. *)
Definition isWhiteSpace (c : code_unit) : bool :=
  (c =? 9) || (c =? 10) || (c =? 11) || (c =? 12) || (c =? 13) || (c =? 32)
  || (c =? 160) || (c =? 5760)
  || ((8192 <=? c) && (c <=? 8202))
  || (c =? 8232) || (c =? 8233) || (c =? 8239) || (c =? 8287)
  || (c =? 12288) || (c =? 65279).

(** [String.prototype.trim]. *)
Fixpoint trimStart (s : jsstring) : jsstring :=
  match s with
  | [] => []
  | c :: t => if isWhiteSpace c then trimStart t else s
  end.

Definition trimEnd (s : jsstring) : jsstring := rev (trimStart (rev s)).

Definition trim (s : jsstring) : jsstring := trimEnd (trimStart s).

(** [s.replace(/\s+/g, '_')]: every maximal run of white space becomes one
    underscore.  [in_run] tells whether the previous unit was white space. *)
Definition underscore : code_unit := 95.

Fixpoint replaceRuns (in_run : bool) (s : jsstring) : jsstring :=
  match s with
  | [] => []
  | c :: t =>
      if isWhiteSpace c
      then (if in_run then replaceRuns true t else underscore :: replaceRuns true t)
      else c :: replaceRuns false t
  end.

Definition replaceWhitespace (s : jsstring) : jsstring := replaceRuns false s.

(** [String.prototype.startsWith] and [String.prototype.includes]. *)
Fixpoint startsWith (s sub : jsstring) {struct sub} : bool :=
  match sub, s with
  | [], _ => true
  | _ :: _, [] => false
  | x :: sub', c :: s' => (c =? x) && startsWith s' sub'
  end.

Fixpoint includes (s sub : jsstring) : bool :=
  startsWith s sub ||
  match s with
  | [] => false
  | _ :: s' => includes s' sub
  end.

Definition endsWith (s sub : jsstring) : bool := startsWith (rev s) (rev sub).

(** *** encodeURIComponent *)

(** The unescaped set of [encodeURIComponent]: ASCII letters, decimal digits
    and [- _ . ! ~ * ' ( )]. *)
Definition isUnreserved (c : code_unit) : bool :=
  ((65 <=? c) && (c <=? 90)) || ((97 <=? c) && (c <=? 122))
  || ((48 <=? c) && (c <=? 57))
  || (c =? 45) || (c =? 95) || (c =? 46) || (c =? 33) || (c =? 126)
  || (c =? 42) || (c =? 39) || (c =? 40) || (c =? 41).

Definition isLeadingSurrogate (c : code_unit) : bool :=
  (55296 <=? c) && (c <=? 56319).

Definition isTrailingSurrogate (c : code_unit) : bool :=
  (56320 <=? c) && (c <=? 57343).

Definition surrogatePair (lead trail : code_unit) : N :=
  (lead - 55296) * 1024 + (trail - 56320) + 65536.

(** The octets of the UTF-8 encoding of a code point. *)
Definition utf8 (cp : N) : list N :=
  if cp <? 128 then [cp]
  else if cp <? 2048 then [192 + cp / 64; 128 + cp mod 64]
  else if cp <? 65536 then
    [224 + cp / 4096; 128 + (cp / 64) mod 64; 128 + cp mod 64]
  else
    [240 + cp / 262144; 128 + (cp / 4096) mod 64;
     128 + (cp / 64) mod 64; 128 + cp mod 64].

Definition hexDigit (d : N) : code_unit :=
  if d <? 10 then 48 + d else 55 + d.

Definition percent : code_unit := 37.

(** One octet as [%XX], upper-case hexadecimal. *)
Definition escapeOctet (o : N) : jsstring :=
  [percent; hexDigit (o / 16); hexDigit (o mod 16)].

Definition escapeCodePoint (cp : N) : jsstring :=
  flat_map escapeOctet (utf8 cp).

(** [Encode] of ECMA-262 with the unescaped set above.  [None] is the
    [URIError] thrown at an unpaired surrogate. *)
Fixpoint encodeURIComponent (s : jsstring) : option jsstring :=
  match s with
  | [] => Some []
  | c :: t =>
      if isUnreserved c then option_map (cons c) (encodeURIComponent t)
      else if isLeadingSurrogate c then
        match t with
        | d :: t' =>
            if isTrailingSurrogate d
            then option_map (app (escapeCodePoint (surrogatePair c d)))
                            (encodeURIComponent t')
            else None
        | [] => None
        end
      else if isTrailingSurrogate c then None
      else option_map (app (escapeCodePoint c)) (encodeURIComponent t)
  end.

(** [String.prototype.isWellFormed]: no unpaired surrogate. *)
Fixpoint isWellFormed (s : jsstring) : bool :=
  match s with
  | [] => true
  | c :: t =>
      if isLeadingSurrogate c then
        match t with
        | d :: t' => isTrailingSurrogate d && isWellFormed t'
        | [] => false
        end
      else negb (isTrailingSurrogate c) && isWellFormed t
  end.

End JS.

Import JS.

(** ** Data model *)

Record SearchResult := {
  id : jsstring;
  title : jsstring;
  description : jsstring;
  url : jsstring;
  snippet : jsstring
}.

(** The configured recognition object held in the [recognition] state. *)
Record SpeechRecognition := {
  continuous : bool;
  interimResults : bool;
  lang : jsstring
}.

Record SpeechSynthesisUtterance := {
  text : jsstring;
  rate : Q;
  pitch : Q;
  volume : Q
}.

(** What [window] offers: the two capability tests of the component. *)
Record Window := {
  hasSpeechRecognition : bool;
  hasSpeechSynthesis : bool
}.

(** The [useState] cells of the component. *)
Record State := {
  searchQuery : jsstring;
  isListening : bool;
  searchResults : list SearchResult;
  isLoading : bool;
  recognition : option SpeechRecognition
}.

Inductive ToastVariant := Default | Destructive.

(** Everything the component does to the outside, and every state setter it
    calls, in the order it happens. *)
Inductive Effect :=
| SetSearchQuery (q : jsstring)
| SetIsListening (b : bool)
| SetSearchResults (rs : list SearchResult)
| SetIsLoading (b : bool)
| SetRecognition (r : SpeechRecognition)
| Toast (toastTitle toastDescription : jsstring) (variant : ToastVariant)
| ConsoleError (message detail : jsstring)
| ConsoleWarn (message : jsstring)
| RecognitionStart
| RecognitionStop
| SetTimeout (ms : N)
| Speak (u : SpeechSynthesisUtterance)
| WindowOpen (href target features : jsstring)
| PreventDefault
| StopPropagation
| UnhandledURIError.

(** A [handleSearch] call suspended at its [await]: the time its timer is
    due and the [query] its continuation closes over. *)
Record Timer := {
  due : N;
  pendingQuery : jsstring
}.

Record World := {
  state : State;
  window : Window;
  now : N;
  timers : list Timer;
  trace : list Effect
}.

(** ** Handlers as world transformers *)

Definition Action := World -> World.

Definition andThen (a b : Action) : Action := fun w => b (a w).

Notation "a ;; b" := (andThen a b) (at level 61, left associativity).

Definition emit (e : Effect) : Action := fun w =>
  {| state := state w; window := window w; now := now w;
     timers := timers w; trace := trace w ++ [e] |}.

Definition modify (f : State -> State) : Action := fun w =>
  {| state := f (state w); window := window w; now := now w;
     timers := timers w; trace := trace w |}.

Definition setSearchQuery (q : jsstring) : Action :=
  emit (SetSearchQuery q) ;;
  modify (fun s =>
    {| searchQuery := q; isListening := isListening s;
       searchResults := searchResults s; isLoading := isLoading s;
       recognition := recognition s |}).

Definition setIsListening (b : bool) : Action :=
  emit (SetIsListening b) ;;
  modify (fun s =>
    {| searchQuery := searchQuery s; isListening := b;
       searchResults := searchResults s; isLoading := isLoading s;
       recognition := recognition s |}).

Definition setSearchResults (rs : list SearchResult) : Action :=
  emit (SetSearchResults rs) ;;
  modify (fun s =>
    {| searchQuery := searchQuery s; isListening := isListening s;
       searchResults := rs; isLoading := isLoading s;
       recognition := recognition s |}).

Definition setIsLoading (b : bool) : Action :=
  emit (SetIsLoading b) ;;
  modify (fun s =>
    {| searchQuery := searchQuery s; isListening := isListening s;
       searchResults := searchResults s; isLoading := b;
       recognition := recognition s |}).

Definition setRecognition (r : SpeechRecognition) : Action :=
  emit (SetRecognition r) ;;
  modify (fun s =>
    {| searchQuery := searchQuery s; isListening := isListening s;
       searchResults := searchResults s; isLoading := isLoading s;
       recognition := Some r |}).

Definition toast (t d : jsstring) (v : ToastVariant) : Action :=
  emit (Toast t d v).

(** [setTimeout(resolve, ms)] inside the awaited promise of [handleSearch]. *)
Definition setTimeout (ms : N) (q : jsstring) : Action :=
  emit (SetTimeout ms) ;;
  (fun w =>
    {| state := state w; window := window w; now := now w;
       timers := timers w ++ [{| due := now w + ms; pendingQuery := q |}];
       trace := trace w |}).

(** ** The Result Synthesizer *)

Definition generateSearchResults (query : jsstring) : option (list SearchResult) :=
  match encodeURIComponent query with
  | None => None
  | Some encodedQuery =>
    Some [
      {| id := lit "1";
         title := query ++ lit " - Wikipedia";
         description :=
           lit "Learn comprehensive information about " ++ query ++ lit " on Wikipedia";
         url := lit "https://en.wikipedia.org/wiki/" ++ replaceWhitespace query;
         snippet :=
           lit "Discover detailed information about " ++ query ++
           lit " including its history, definition, and related topics. Wikipedia provides reliable, well-sourced content that's perfect for learning and research." |};
      {| id := lit "2";
         title := query ++ lit " - YouTube Tutorials";
         description := lit "Watch educational videos about " ++ query;
         url := lit "https://www.youtube.com/results?search_query=" ++ encodedQuery ++
                lit "+tutorial";
         snippet :=
           lit "Visual learning made easy! Watch step-by-step tutorials, expert explanations, and practical demonstrations about " ++
           query ++ lit " from top educators and professionals." |};
      {| id := lit "3";
         title := query ++ lit " - Khan Academy";
         description := lit "Free online courses and lessons about " ++ query;
         url := lit "https://www.khanacademy.org/search?page_search_query=" ++
                encodedQuery;
         snippet :=
           lit "Access free, world-class education materials about " ++ query ++
           lit ". Khan Academy offers structured learning paths, practice exercises, and expert instruction." |};
      {| id := lit "4";
         title := query ++ lit " - Coursera Courses";
         description :=
           lit "Professional courses and certifications related to " ++ query;
         url := lit "https://www.coursera.org/search?query=" ++ encodedQuery;
         snippet :=
           lit "Advance your knowledge with university-level courses about " ++ query ++
           lit ". Learn from top institutions and industry experts with hands-on projects and certificates." |};
      {| id := lit "5";
         title := query ++ lit " - Reddit Discussions";
         description :=
           lit "Community discussions and real experiences about " ++ query;
         url := lit "https://www.reddit.com/search/?q=" ++ encodedQuery;
         snippet :=
           lit "Join the conversation! Read real experiences, ask questions, and get practical advice about " ++
           query ++ lit " from a vibrant community of learners and experts." |};
      {| id := lit "6";
         title := query ++ lit " - Google Scholar";
         description :=
           lit "Academic research and scholarly articles about " ++ query;
         url := lit "https://scholar.google.com/scholar?q=" ++ encodedQuery;
         snippet :=
           lit "Access peer-reviewed research papers, academic studies, and scholarly articles about " ++
           query ++ lit ". Perfect for in-depth research and academic learning." |}
    ]
  end.

(** ** Speech output *)

Definition utterance (t : jsstring) : SpeechSynthesisUtterance :=
  {| text := t; rate := 0.8%Q; pitch := 1%Q; volume := 0.8%Q |}.

Definition speakResult (t : jsstring) : Action := fun w =>
  if hasSpeechSynthesis (window w) then emit (Speak (utterance t)) w else w.

(** Defaults of a fresh [SpeechSynthesisUtterance] in the Web Speech API. *)
Definition defaultRate : Q := 1%Q.
Definition defaultPitch : Q := 1%Q.
Definition defaultVolume : Q := 1%Q.

(** ** Search orchestration *)

Definition summary (count : nat) (query : jsstring) : jsstring :=
  lit "Found " ++ numberToString count ++ lit " learning resources for " ++
  query ++ lit ". Click any result to start learning!".

(** [handleSearch] up to its [await]. *)
Definition handleSearch (query : jsstring) : Action := fun w =>
  if negb (truthy (trim query)) then w
  else (setIsLoading true ;; setTimeout 1000 query) w.

(** [handleSearch] after its [await]; the exception of [encodeURIComponent]
    leaves [generateSearchResults] and rejects the promise of the call, which
    no caller handles. *)
Definition handleSearchResume (query : jsstring) : Action :=
  match generateSearchResults query with
  | None => emit UnhandledURIError
  | Some results =>
      setSearchResults results ;;
      setIsLoading false ;;
      speakResult (summary (List.length results) query)
  end.

(** ** The event loop: timers *)

(** The next timer to fire: the least [due], the first registered on a tie. *)
Fixpoint nextTimer (l : list Timer) : option (Timer * list Timer) :=
  match l with
  | [] => None
  | t :: r =>
      match nextTimer r with
      | None => Some (t, [])
      | Some (m, r') =>
          if due t <=? due m then Some (t, r) else Some (m, t :: r')
      end
  end.

Definition fireTimer (t : Timer) (rest : list Timer) : Action := fun w =>
  handleSearchResume (pendingQuery t)
    {| state := state w; window := window w; now := N.max (now w) (due t);
       timers := rest; trace := trace w |}.

(** Let the clock reach [target], firing in order every timer due by then. *)
Fixpoint runUntil (fuel : nat) (target : N) (w : World) : World :=
  match fuel with
  | O => w
  | S fuel' =>
      match nextTimer (timers w) with
      | Some (t, rest) =>
          if due t <=? target then runUntil fuel' target (fireTimer t rest w)
          else w
      | None => w
      end
  end.

Definition elapse (d : N) : Action := fun w =>
  let w' := runUntil (List.length (timers w)) (now w + d) w in
  {| state := state w'; window := window w'; now := now w + d;
     timers := timers w'; trace := trace w' |}.

(** ** Speech input *)

Definition newRecognition : SpeechRecognition :=
  {| continuous := false; interimResults := false; lang := lit "en-US" |}.

(** The mount effect. *)
Definition initialise : Action := fun w =>
  if hasSpeechRecognition (window w)
  then setRecognition newRecognition w
  else emit (ConsoleWarn (lit "Speech recognition not supported")) w.

Definition onstart : Action :=
  setIsListening true ;;
  toast (lit "Listening...") (lit "Speak now to search") Default.

Definition onresult (transcript : jsstring) : Action :=
  setSearchQuery transcript ;;
  handleSearch transcript.

Definition onerror (error : jsstring) : Action :=
  emit (ConsoleError (lit "Speech recognition error:") error) ;;
  setIsListening false ;;
  toast (lit "Voice Recognition Error")
        (lit "Please try again or use text input") Destructive.

Definition onend : Action := setIsListening false.

Definition startVoiceRecognition : Action := fun w =>
  match recognition (state w) with
  | Some _ => emit RecognitionStart w
  | None =>
      toast (lit "Voice Recognition Not Supported")
            (lit "Your browser doesn't support voice recognition")
            Destructive w
  end.

Definition stopVoiceRecognition : Action := fun w =>
  match recognition (state w) with
  | Some _ => emit RecognitionStop w
  | None => w
  end.

(** ** The remaining handlers of the view *)

Definition onSearchSubmit : Action :=
  emit PreventDefault ;;
  (fun w => handleSearch (searchQuery (state w)) w).

Definition handleResultClick (href ttl : jsstring) : Action :=
  emit (WindowOpen href (lit "_blank") (lit "noopener,noreferrer")) ;;
  toast (lit "Opening Resource")
        (lit "Opening " ++ ttl ++ lit " in a new tab") Default.

Definition micClick : Action := fun w =>
  if isListening (state w) then stopVoiceRecognition w
  else startVoiceRecognition w.

Definition readResultsClick : Action := fun w =>
  speakResult (summary (List.length (searchResults (state w)))
                       (searchQuery (state w))) w.

Definition speakButtonClick (r : SearchResult) : Action :=
  emit StopPropagation ;; speakResult (snippet r).

(** The four quick-pick buttons of the empty state. *)
Inductive Topic := MachineLearning | WebDevelopment | Cooking | Photography.

Definition topicQuery (t : Topic) : jsstring :=
  match t with
  | MachineLearning => lit "machine learning"
  | WebDevelopment => lit "web development"
  | Cooking => lit "cooking"
  | Photography => lit "photography"
  end.

(** Everything that can happen to a mounted component: the user's actions,
    the events of the recognition session, and the passing of time.  The
    view enables some controls only in some states (the quick picks in the
    empty state, the submit button while not loading); [step] does not
    restrict them, so what holds for every run holds for the runs the view
    allows. *)
Inductive Event :=
| Change (value : jsstring)
| Submit
| MicClick
| QuickPick (topic : Topic)
| CardClick (r : SearchResult)
| SpeakClick (r : SearchResult)
| ReadResultsClick
| RecognitionStarted
| RecognitionResult (transcript : jsstring)
| RecognitionError (error : jsstring)
| RecognitionEnded
| Elapse (d : N).

Definition step (e : Event) : Action :=
  match e with
  | Change v => setSearchQuery v
  | Submit => onSearchSubmit
  | MicClick => micClick
  | QuickPick topic => handleSearch (topicQuery topic)
  | CardClick r => handleResultClick (url r) (title r)
  | SpeakClick r => speakButtonClick r
  | ReadResultsClick => readResultsClick
  | RecognitionStarted => onstart
  | RecognitionResult t => onresult t
  | RecognitionError err => onerror err
  | RecognitionEnded => onend
  | Elapse d => elapse d
  end.

Definition run (es : list Event) : Action := fun w =>
  fold_left (fun w e => step e w) es w.

Definition initialState : State :=
  {| searchQuery := []; isListening := false; searchResults := [];
     isLoading := false; recognition := None |}.

(** The component right after mounting in a given browser. *)
Definition mount (win : Window) : World :=
  initialise {| state := initialState; window := win; now := 0;
                timers := []; trace := [] |}.

(** The effects of the continuation of [handleSearch query] in a browser
    [win], in order. *)
Definition resumeEffects (win : Window) (query : jsstring) : list Effect :=
  match generateSearchResults query with
  | None => [UnhandledURIError]
  | Some results =>
      [SetSearchResults results; SetIsLoading false] ++
      (if hasSpeechSynthesis win
       then [Speak (utterance (summary (List.length results) query))]
       else [])
  end.

(** Field-for-field equality of results and of outcomes of the synthesizer. *)
Definition sameResult (a b : SearchResult) : Prop :=
  id a = id b /\ title a = title b /\ description a = description b /\
  url a = url b /\ snippet a = snippet b.

Definition sameOutcome (a b : option (list SearchResult)) : Prop :=
  match a, b with
  | Some ra, Some rb => Forall2 sameResult ra rb
  | None, None => True
  | _, _ => False
  end.

(** A query has content when some code unit of it is not white space. *)
Definition blank (q : jsstring) : bool := forallb isWhiteSpace q.

Definition browser (recog synth : bool) : Window :=
  {| hasSpeechRecognition := recog; hasSpeechSynthesis := synth |}.

(** ** What the view shows *)

(** The conditions under which the component renders its panels. *)
Definition showsListening (w : World) : bool := isListening (state w).

Definition showsResults (w : World) : bool :=
  negb (Nat.eqb (List.length (searchResults (state w))) 0).

Definition showsLoading (w : World) : bool := isLoading (state w).

Definition showsEmptyState (w : World) : bool :=
  negb (isLoading (state w))
  && Nat.eqb (List.length (searchResults (state w))) 0
  && negb (truthy (searchQuery (state w))).

Definition submitDisabled (w : World) : bool := isLoading (state w).

(** ** Auxiliary predicates *)

(** The events delivered by the recognition session, as opposed to the
    user's actions and the passing of time. *)
Definition recognitionEvent (e : Event) : bool :=
  match e with
  | RecognitionStarted | RecognitionResult _
  | RecognitionError _ | RecognitionEnded => true
  | _ => false
  end.

(** The events that write the query cell. *)
Definition writesQuery (e : Event) : bool :=
  match e with
  | Change _ | RecognitionResult _ => true
  | _ => false
  end.

(** The results are the initial empty list or an output of the synthesizer. *)
Definition fromSynthesizer (s : State) : Prop :=
  searchResults s = [] \/
  exists q, generateSearchResults q = Some (searchResults s).

(** Every pending search is due within the fixed delay. *)
Definition timersBounded (w : World) : Prop :=
  Forall (fun t => due t <= now w + 1000) (timers w).

(** Printable ASCII other than the space, and what [encodeURIComponent]
    can emit. *)
Definition printable (c : code_unit) : bool := (33 <=? c) && (c <=? 126).

Definition escaped (c : code_unit) : bool := isUnreserved c || (c =? percent).

(** A browser with both speech capabilities, and the mounted component. *)
Definition fullBrowser : Window := browser true true.

Definition mounted : World := mount fullBrowser.

(** A query that is a single unpaired leading surrogate, U+D800. *)
Definition loneSurrogate : jsstring := [55296].

(** "cooking" searched and, half a second later, the unpaired surrogate;
    then a second passes. *)
Definition overlapThrows : World :=
  elapse 1000 (handleSearch loneSurrogate
    (elapse 500 (handleSearch (lit "cooking") mounted))).

(** "cooking" searched and, 300 ms later, "photography"; then a second
    passes. *)
Definition overlapTwoTopics : World :=
  elapse 1000 (handleSearch (lit "photography")
    (elapse 300 (handleSearch (lit "cooking") mounted))).

(** Boolean character-class facts by linear arithmetic. *)
Ltac char_class :=
  unfold isUnreserved, isWhiteSpace, isLeadingSurrogate, isTrailingSurrogate in *;
  repeat match goal with
         | |- _ = false => apply not_true_iff_false; intro
         end;
  rewrite ?orb_true_iff, ?andb_true_iff, ?N.leb_le, ?N.eqb_eq in *;
  lia.

(** ** Examples *)

Example encode_cooking :
  encodeURIComponent (lit "cooking") = Some (lit "cooking").
Proof. reflexivity. Qed.

Example encode_machine_learning :
  encodeURIComponent (lit "machine learning") = Some (lit "machine%20learning").
Proof. reflexivity. Qed.

Example encode_cplusplus :
  encodeURIComponent (lit "C++ & C#") = Some (lit "C%2B%2B%20%26%20C%23").
Proof. reflexivity. Qed.

(** U+00E9 and the pair D83D DE00 (U+1F600). *)
Example encode_non_ascii :
  encodeURIComponent [233; 55357; 56832] = Some (lit "%C3%A9%F0%9F%98%80").
Proof. reflexivity. Qed.

Example encode_lone_surrogate : encodeURIComponent [55296] = None.
Proof. reflexivity. Qed.

Example cooking_urls :
  option_map (map url) (generateSearchResults (lit "cooking")) =
  Some [lit "https://en.wikipedia.org/wiki/cooking";
        lit "https://www.youtube.com/results?search_query=cooking+tutorial";
        lit "https://www.khanacademy.org/search?page_search_query=cooking";
        lit "https://www.coursera.org/search?query=cooking";
        lit "https://www.reddit.com/search/?q=cooking";
        lit "https://scholar.google.com/scholar?q=cooking"].
Proof. reflexivity. Qed.

Example machine_learning_urls :
  option_map (map url) (generateSearchResults (lit "machine learning")) =
  Some [lit "https://en.wikipedia.org/wiki/machine_learning";
        lit "https://www.youtube.com/results?search_query=machine%20learning+tutorial";
        lit "https://www.khanacademy.org/search?page_search_query=machine%20learning";
        lit "https://www.coursera.org/search?query=machine%20learning";
        lit "https://www.reddit.com/search/?q=machine%20learning";
        lit "https://scholar.google.com/scholar?q=machine%20learning"].
Proof. reflexivity. Qed.

Example quick_pick_cooking :
  trace (run [QuickPick Cooking; Elapse 1000] mounted) =
  trace (elapse 1000 (handleSearch (lit "cooking") mounted)).
Proof. reflexivity. Qed.

Example unsupported_mic_click :
  isListening (state (run [MicClick] (mount (browser false true)))) = false.
Proof. reflexivity. Qed.

Example replace_runs_example :
  replaceWhitespace (lit "  machine   learning ") = lit "_machine_learning_".
Proof. reflexivity. Qed.

Example trim_example : trim (lit "  a b  ") = lit "a b".
Proof. reflexivity. Qed.

(** ** Strings *)

Section StringFacts.

Lemma startsWith_app (sub r : jsstring) : startsWith (sub ++ r) sub = true.
Proof.
  induction sub as [|x sub IH]; simpl; [reflexivity|].
  now rewrite N.eqb_refl, IH.
Qed.

Lemma includes_startsWith (s sub : jsstring) :
  startsWith s sub = true -> includes s sub = true.
Proof. destruct s; simpl; intros ->; reflexivity. Qed.

Lemma includes_app_mid (a sub b : jsstring) : includes (a ++ sub ++ b) sub = true.
Proof.
  induction a as [|x a IH].
  - simpl app. apply includes_startsWith, startsWith_app.
  - simpl. rewrite IH. apply orb_true_r.
Qed.

Lemma includes_app_l (a sub : jsstring) : includes (a ++ sub) sub = true.
Proof.
  rewrite <- (app_nil_r sub) at 1. apply includes_app_mid.
Qed.

Lemma includes_app_r (sub b : jsstring) : includes (sub ++ b) sub = true.
Proof. apply (includes_app_mid [] sub b). Qed.

Lemma trimStart_nil_iff (s : jsstring) : trimStart s = [] <-> blank s = true.
Proof.
  unfold blank. induction s as [|c t IH]; simpl.
  - tauto.
  - destruct (isWhiteSpace c); simpl; [exact IH|]. split; discriminate.
Qed.

Lemma blank_trimStart (s : jsstring) : blank s = false -> blank (trimStart s) = false.
Proof.
  unfold blank. induction s as [|c t IH]; simpl; [discriminate|].
  destruct (isWhiteSpace c) eqn:E; simpl; intros H; [auto|].
  now rewrite E.
Qed.

Lemma blank_rev (s : jsstring) : blank (rev s) = blank s.
Proof.
  unfold blank. induction s as [|c t IH]; simpl; [reflexivity|].
  rewrite forallb_app, IH. simpl. rewrite andb_true_r. apply andb_comm.
Qed.

(** [trim] leaves nothing exactly when every code unit is white space. *)
Lemma trim_nil_iff (s : jsstring) : trim s = [] <-> blank s = true.
Proof.
  unfold trim, trimEnd. split.
  - intros H. destruct (blank s) eqn:B; [reflexivity|].
    apply (f_equal (@rev _)) in H. rewrite rev_involutive in H. simpl in H.
    apply trimStart_nil_iff in H. rewrite blank_rev in H.
    now rewrite (blank_trimStart s B) in H.
  - intros B. apply trimStart_nil_iff in B. now rewrite B.
Qed.

Lemma truthy_trim (s : jsstring) : truthy (trim s) = negb (blank s).
Proof.
  destruct (blank s) eqn:B.
  - apply trim_nil_iff in B. now rewrite B.
  - destruct (trim s) eqn:T; [|reflexivity].
    apply trim_nil_iff in T. congruence.
Qed.

Lemma replaceRuns_blank (s : jsstring) : blank s = true -> replaceRuns true s = [].
Proof.
  unfold blank. induction s as [|c t IH]; simpl; [reflexivity|].
  destruct (isWhiteSpace c); simpl; [exact IH|discriminate].
Qed.

(** Without white space the string is copied as it is. *)
Lemma replaceRuns_verbatim (s : jsstring) (b : bool) :
  forallb (fun c => negb (isWhiteSpace c)) s = true -> replaceRuns b s = s.
Proof.
  revert b. induction s as [|c t IH]; simpl; intros b H; [reflexivity|].
  apply andb_true_iff in H as [Hc Ht].
  destruct (isWhiteSpace c); [discriminate|]. now rewrite IH.
Qed.

Lemma replaceRuns_snoc (c : code_unit) (t : jsstring) (b : bool) :
  isWhiteSpace c = true -> b = false \/ blank t = false ->
  exists u, replaceRuns b (t ++ [c]) = u ++ [underscore].
Proof.
  intros Hc. revert b. unfold blank.
  induction t as [|x t IH]; simpl; intros b H.
  - destruct H as [->|H]; [|discriminate]. rewrite Hc. now exists [].
  - destruct (isWhiteSpace x) eqn:Ex; simpl in H.
    + destruct (forallb isWhiteSpace t) eqn:Bt.
      * destruct H as [->|H]; [|discriminate].
        rewrite replaceRuns_blank.
        -- now exists [].
        -- unfold blank. now rewrite forallb_app, Bt; simpl; rewrite Hc.
      * destruct (IH true) as [u Hu]; [now right|]. rewrite Hu.
        destruct b; [now exists u | now exists (underscore :: u)].
    + destruct (forallb isWhiteSpace t) eqn:Bt.
      * destruct (IH false) as [u Hu]; [now left|]. rewrite Hu.
        now exists (x :: u).
      * destruct (IH false) as [u Hu]; [now left|]. rewrite Hu.
        now exists (x :: u).
Qed.

End StringFacts.

(** ** encodeURIComponent *)

Section Encoding.

Lemma unreserved_not_leading c : isUnreserved c = true -> isLeadingSurrogate c = false.
Proof. intros H. char_class. Qed.

Lemma unreserved_not_trailing c : isUnreserved c = true -> isTrailingSurrogate c = false.
Proof. intros H. char_class. Qed.

Lemma whitespace_not_unreserved c : isWhiteSpace c = true -> isUnreserved c = false.
Proof. intros H. char_class. Qed.

Lemma whitespace_not_leading c : isWhiteSpace c = true -> isLeadingSurrogate c = false.
Proof. intros H. char_class. Qed.

Lemma whitespace_not_trailing c : isWhiteSpace c = true -> isTrailingSurrogate c = false.
Proof. intros H. char_class. Qed.

Lemma leading_not_trailing c : isLeadingSurrogate c = true -> isTrailingSurrogate c = false.
Proof. intros H. char_class. Qed.

(** Induction two code units at a time, as [encodeURIComponent] consumes a
    surrogate pair. *)
Lemma pair_induction (P : jsstring -> Prop) :
  P [] -> (forall c, P [c]) ->
  (forall c d t, P t -> P (d :: t) -> P (c :: d :: t)) ->
  forall s, P s.
Proof.
  intros H0 H1 H2 s.
  enough (P s /\ forall c, P (c :: s)) by tauto.
  induction s as [|d t [IH1 IH2]]; split; auto.
Qed.

(** [encodeURIComponent] throws exactly on the strings that are not
    well formed. *)
Lemma encodeURIComponent_total (s : jsstring) :
  isWellFormed s = true <-> exists e, encodeURIComponent s = Some e.
Proof.
  pattern s; apply pair_induction; clear s; [|intros c|intros c d t IHt IHd].
  - simpl. split; eauto.
  - simpl. destruct (isUnreserved c) eqn:U.
    + rewrite (unreserved_not_leading c U), (unreserved_not_trailing c U).
      simpl. split; eauto.
    + destruct (isLeadingSurrogate c); [split; [discriminate|intros [e H]; discriminate]|].
      destruct (isTrailingSurrogate c); simpl; split; eauto;
        try discriminate; intros [e H]; discriminate.
  - change (isWellFormed (c :: d :: t)) with
      (if isLeadingSurrogate c then isTrailingSurrogate d && isWellFormed t
       else negb (isTrailingSurrogate c) && isWellFormed (d :: t)).
    change (encodeURIComponent (c :: d :: t)) with
      (if isUnreserved c then option_map (cons c) (encodeURIComponent (d :: t))
       else if isLeadingSurrogate c then
         if isTrailingSurrogate d
         then option_map (app (escapeCodePoint (surrogatePair c d)))
                         (encodeURIComponent t)
         else None
       else if isTrailingSurrogate c then None
       else option_map (app (escapeCodePoint c)) (encodeURIComponent (d :: t))).
    destruct (isUnreserved c) eqn:U.
    + rewrite (unreserved_not_leading c U), (unreserved_not_trailing c U).
      cbn [negb andb]. rewrite IHd.
      split; intros [e H]; [rewrite H; simpl; eauto|].
      destruct (encodeURIComponent (d :: t)); [eauto|discriminate].
    + destruct (isLeadingSurrogate c).
      * destruct (isTrailingSurrogate d); cbn [negb andb].
        -- rewrite IHt. split; intros [e H]; [rewrite H; simpl; eauto|].
           destruct (encodeURIComponent t); [eauto|discriminate].
        -- split; [discriminate|intros [e H]; discriminate].
      * destruct (isTrailingSurrogate c); cbn [negb andb].
        -- split; [discriminate|intros [e H]; discriminate].
        -- rewrite IHd. split; intros [e H]; [rewrite H; simpl; eauto|].
           destruct (encodeURIComponent (d :: t)); [eauto|discriminate].
Qed.

(** A leading white-space unit is escaped in front of the rest. *)
Lemma encodeURIComponent_cons_ws (c : code_unit) (t e : jsstring) :
  isWhiteSpace c = true -> encodeURIComponent (c :: t) = Some e ->
  exists e', encodeURIComponent t = Some e' /\ e = escapeCodePoint c ++ e'.
Proof.
  intros W. simpl.
  rewrite (whitespace_not_unreserved c W), (whitespace_not_leading c W),
    (whitespace_not_trailing c W).
  destruct (encodeURIComponent t) as [e'|]; simpl; [|discriminate].
  intros [= <-]. eauto.
Qed.

(** A trailing white-space unit is escaped behind the rest. *)
Lemma encodeURIComponent_snoc_ws (c : code_unit) (t : jsstring) :
  isWhiteSpace c = true -> forall e, encodeURIComponent (t ++ [c]) = Some e ->
  exists e', encodeURIComponent t = Some e' /\ e = e' ++ escapeCodePoint c.
Proof.
  intros W.
  pattern t; apply pair_induction; clear t;
    [|intros x|intros x d t IHt IHd]; intros e.
  - intros H. destruct (encodeURIComponent_cons_ws c [] e W H) as (e' & H' & ->).
    simpl in H'. injection H' as <-. exists []. now rewrite app_nil_r.
  - intros H. change ([x] ++ [c]) with (x :: [c]) in H.
    simpl in H |- *.
    rewrite (whitespace_not_unreserved c W), (whitespace_not_leading c W),
      (whitespace_not_trailing c W) in H. simpl in H.
    destruct (isUnreserved x).
    + injection H as <-. simpl. exists [x]. split; [reflexivity|].
      now rewrite app_nil_r.
    + destruct (isLeadingSurrogate x); [discriminate|].
      destruct (isTrailingSurrogate x); [discriminate|].
      simpl in H. injection H as <-. simpl. exists (escapeCodePoint x ++ []).
      split; [reflexivity|]. now rewrite !app_nil_r.
  - change ((x :: d :: t) ++ [c]) with (x :: d :: (t ++ [c])).
    change (d :: t ++ [c]) with ((d :: t) ++ [c]) in *.
    intros H.
    change (encodeURIComponent (x :: (d :: t) ++ [c])) with
      (if isUnreserved x then option_map (cons x) (encodeURIComponent ((d :: t) ++ [c]))
       else if isLeadingSurrogate x then
         if isTrailingSurrogate d
         then option_map (app (escapeCodePoint (surrogatePair x d)))
                         (encodeURIComponent (t ++ [c]))
         else None
       else if isTrailingSurrogate x then None
       else option_map (app (escapeCodePoint x))
                       (encodeURIComponent ((d :: t) ++ [c]))) in H.
    change (encodeURIComponent (x :: d :: t)) with
      (if isUnreserved x then option_map (cons x) (encodeURIComponent (d :: t))
       else if isLeadingSurrogate x then
         if isTrailingSurrogate d
         then option_map (app (escapeCodePoint (surrogatePair x d)))
                         (encodeURIComponent t)
         else None
       else if isTrailingSurrogate x then None
       else option_map (app (escapeCodePoint x)) (encodeURIComponent (d :: t))).
    destruct (isUnreserved x).
    + destruct (encodeURIComponent ((d :: t) ++ [c])) as [e1|]; [|discriminate].
      injection H as <-. destruct (IHd e1 eq_refl) as (e' & -> & ->).
      simpl. eauto.
    + destruct (isLeadingSurrogate x).
      * destruct (isTrailingSurrogate d); [|discriminate].
        destruct (encodeURIComponent (t ++ [c])) as [e1|]; [|discriminate].
        injection H as <-. destruct (IHt e1 eq_refl) as (e' & -> & ->).
        simpl. rewrite app_assoc. eauto.
      * destruct (isTrailingSurrogate x); [discriminate|].
        destruct (encodeURIComponent ((d :: t) ++ [c])) as [e1|]; [|discriminate].
        injection H as <-. destruct (IHd e1 eq_refl) as (e' & -> & ->).
        simpl. rewrite app_assoc. eauto.
Qed.

Lemma escape_space : escapeCodePoint 32 = lit "%20".
Proof. reflexivity. Qed.

(** On a well-formed query the synthesizer returns, and returns six results. *)
Lemma generateSearchResults_returns (q : jsstring) :
  isWellFormed q = true ->
  exists rs, generateSearchResults q = Some rs /\ List.length rs = 6%nat.
Proof.
  intros WF. apply encodeURIComponent_total in WF as [e He].
  unfold generateSearchResults. rewrite He. eexists. split; reflexivity.
Qed.

End Encoding.

(** ** The continuation of a search and the timers *)

Section Orchestration.

Lemma handleSearch_blank (q : jsstring) (w : World) :
  blank q = true -> handleSearch q w = w.
Proof. intros B. unfold handleSearch. now rewrite truthy_trim, B. Qed.

Lemma handleSearch_dispatch (q : jsstring) (w : World) :
  blank q = false ->
  handleSearch q w =
  {| state := {| searchQuery := searchQuery (state w);
                 isListening := isListening (state w);
                 searchResults := searchResults (state w);
                 isLoading := true;
                 recognition := recognition (state w) |};
     window := window w; now := now w;
     timers := timers w ++ [{| due := now w + 1000; pendingQuery := q |}];
     trace := (trace w ++ [SetIsLoading true]) ++ [SetTimeout 1000] |}.
Proof. intros B. unfold handleSearch. now rewrite truthy_trim, B. Qed.

Lemma speakResult_frame (t : jsstring) (w : World) :
  state (speakResult t w) = state w /\ window (speakResult t w) = window w /\
  now (speakResult t w) = now w /\ timers (speakResult t w) = timers w.
Proof. unfold speakResult. destruct (hasSpeechSynthesis (window w)); simpl; auto. Qed.

Lemma handleSearchResume_frame (q : jsstring) (w : World) :
  window (handleSearchResume q w) = window w /\
  now (handleSearchResume q w) = now w /\
  timers (handleSearchResume q w) = timers w /\
  recognition (state (handleSearchResume q w)) = recognition (state w) /\
  searchQuery (state (handleSearchResume q w)) = searchQuery (state w) /\
  isListening (state (handleSearchResume q w)) = isListening (state w).
Proof.
  unfold handleSearchResume.
  destruct (generateSearchResults q) as [rs|]; [|simpl; repeat split].
  unfold andThen.
  destruct (speakResult_frame (summary (List.length rs) q)
              (setIsLoading false (setSearchResults rs w))) as (-> & -> & -> & ->).
  simpl. repeat split.
Qed.

Lemma handleSearchResume_trace (q : jsstring) (w : World) :
  trace (handleSearchResume q w) = trace w ++ resumeEffects (window w) q.
Proof.
  unfold handleSearchResume, resumeEffects.
  destruct (generateSearchResults q) as [rs|]; simpl; [|reflexivity].
  unfold andThen, speakResult. simpl.
  destruct (hasSpeechSynthesis (window w)); simpl.
  - now rewrite <- !app_assoc.
  - now rewrite <- !app_assoc.
Qed.

Lemma handleSearchResume_done (q : jsstring) (rs : list SearchResult) (w : World) :
  generateSearchResults q = Some rs ->
  searchResults (state (handleSearchResume q w)) = rs /\
  isLoading (state (handleSearchResume q w)) = false.
Proof.
  intros G. unfold handleSearchResume. rewrite G. unfold andThen.
  destruct (speakResult_frame (summary (List.length rs) q)
              (setIsLoading false (setSearchResults rs w))) as (-> & _).
  simpl. auto.
Qed.

Lemma handleSearchResume_thrown (q : jsstring) (w : World) :
  generateSearchResults q = None ->
  state (handleSearchResume q w) = state w.
Proof. intros G. unfold handleSearchResume. now rewrite G. Qed.

Lemma nextTimer_In (l r : list Timer) (t : Timer) :
  nextTimer l = Some (t, r) -> In t l.
Proof.
  revert r t. induction l as [|x l IH]; simpl; [discriminate|].
  intros r t. destruct (nextTimer l) as [[m r']|].
  - destruct (due x <=? due m); intros [= <- <-]; [now left|].
    right. now apply (IH r').
  - intros [= <- <-]. now left.
Qed.

(** Nothing fires while every pending timer is due later. *)
Lemma runUntil_waits (fuel : nat) (target : N) (w : World) :
  (forall t, In t (timers w) -> target < due t) -> runUntil fuel target w = w.
Proof.
  intros H. destruct fuel as [|fuel]; simpl; [reflexivity|].
  destruct (nextTimer (timers w)) as [[t r]|] eqn:E; [|reflexivity].
  apply nextTimer_In, H in E. apply N.leb_gt in E. now rewrite E.
Qed.

Lemma runUntil_one (target : N) (t : Timer) (w : World) :
  timers w = [t] -> due t <= target ->
  runUntil 1 target w = fireTimer t [] w.
Proof.
  intros T D. simpl. rewrite T. simpl. apply N.leb_le in D. now rewrite D.
Qed.

Lemma runUntil_two (target : N) (t1 t2 : Timer) (w : World) :
  timers w = [t1; t2] -> due t1 <= due t2 -> due t2 <= target ->
  runUntil 2 target w = fireTimer t2 [] (fireTimer t1 [t2] w).
Proof.
  intros T D12 D2.
  assert (D1 : due t1 <= target) by lia.
  apply N.leb_le in D12, D2, D1.
  cbn [runUntil]. rewrite T. cbn [nextTimer]. rewrite D12, D1.
  assert (T' : timers (fireTimer t1 [t2] w) = [t2]).
  { unfold fireTimer.
    now destruct (handleSearchResume_frame (pendingQuery t1)
      {| state := state w; window := window w; now := N.max (now w) (due t1);
         timers := [t2]; trace := trace w |}) as (_ & _ & -> & _). }
  rewrite T'. cbn [nextTimer]. now rewrite D2.
Qed.

End Orchestration.

(** ** The Result Synthesizer *)

Section Synthesizer.

(** C1, as stated, fails: a query that is one unpaired surrogate is not
    empty, and [encodeURIComponent] throws on it, so no result is returned. *)
Lemma generateSearchResults_lone_surrogate :
  loneSurrogate <> [] /\ forallb is_code_unit loneSurrogate = true /\
  generateSearchResults loneSurrogate = None.
Proof. repeat split. discriminate. Qed.

(** C1 (amended): for every non-empty query Q that is well-formed UTF-16 (no
    unpaired surrogate), [generateSearchResults] returns exactly six results
    in the fixed order encyclopedia, video tutorials, two course endpoints,
    community discussion, academic search; the URLs of the last five contain
    the percent-encoded form of Q; the URL of the first is the article path
    followed by Q with each run of white space replaced by an underscore and
    nothing percent-encoded (a Q without white space is appended as it is). *)
Theorem generateSearchResults_six (Q : jsstring) :
  Q <> [] -> isWellFormed Q = true ->
  exists e r1 r2 r3 r4 r5 r6,
    encodeURIComponent Q = Some e /\
    generateSearchResults Q = Some [r1; r2; r3; r4; r5; r6] /\
    map id [r1; r2; r3; r4; r5; r6] =
      [lit "1"; lit "2"; lit "3"; lit "4"; lit "5"; lit "6"] /\
    map title [r1; r2; r3; r4; r5; r6] =
      [Q ++ lit " - Wikipedia"; Q ++ lit " - YouTube Tutorials";
       Q ++ lit " - Khan Academy"; Q ++ lit " - Coursera Courses";
       Q ++ lit " - Reddit Discussions"; Q ++ lit " - Google Scholar"] /\
    url r1 = lit "https://en.wikipedia.org/wiki/" ++ replaceWhitespace Q /\
    url r2 = lit "https://www.youtube.com/results?search_query=" ++ e ++
             lit "+tutorial" /\
    url r3 = lit "https://www.khanacademy.org/search?page_search_query=" ++ e /\
    url r4 = lit "https://www.coursera.org/search?query=" ++ e /\
    url r5 = lit "https://www.reddit.com/search/?q=" ++ e /\
    url r6 = lit "https://scholar.google.com/scholar?q=" ++ e /\
    Forall (fun r => includes (url r) e = true) [r2; r3; r4; r5; r6] /\
    includes (url r1) (replaceWhitespace Q) = true /\
    (forallb (fun c => negb (isWhiteSpace c)) Q = true ->
     url r1 = lit "https://en.wikipedia.org/wiki/" ++ Q).
Proof.
  intros _ WF. apply encodeURIComponent_total in WF as [e He].
  unfold generateSearchResults. rewrite He. exists e.
  do 6 eexists. split; [reflexivity|]. split; [reflexivity|].
  cbn [map id title url].
  repeat (split; [reflexivity|]).
  split; [|split].
  - repeat constructor; cbn [url];
      first [apply includes_app_mid | apply includes_app_l].
  - apply includes_app_l.
  - intros V. unfold replaceWhitespace. now rewrite replaceRuns_verbatim.
Qed.

Lemma generateSearchResults_six_witness :
  lit "machine learning" <> [] /\
  isWellFormed (lit "machine learning") = true /\
  exists rs, generateSearchResults (lit "machine learning") = Some rs /\
             List.length rs = 6%nat.
Proof.
  assert (NE : lit "machine learning" <> []) by discriminate.
  assert (WF : isWellFormed (lit "machine learning") = true) by reflexivity.
  split; [exact NE|]. split; [exact WF|].
  destruct (generateSearchResults_six (lit "machine learning") NE WF)
    as (e & r1 & r2 & r3 & r4 & r5 & r6 & _ & G & _).
  exists [r1; r2; r3; r4; r5; r6]. split; [exact G|reflexivity].
Defined.

(** C8: the synthesizer is a function of the query alone.  Two calls with
    the same Q have the same outcome, field for field and ids included (both
    throw, or both return lists that agree position by position), and the
    results the continuation of a search stores do not depend on the world
    it runs in. *)
Theorem generateSearchResults_deterministic (Q : jsstring)
  (first second : option (list SearchResult)) (w1 w2 : World) :
  generateSearchResults Q = first -> generateSearchResults Q = second ->
  first = second /\ sameOutcome first second /\
  (first <> None ->
   Some (searchResults (state (handleSearchResume Q w1))) = first /\
   Some (searchResults (state (handleSearchResume Q w2))) = second).
Proof.
  intros <- <-. split; [reflexivity|].
  destruct (generateSearchResults Q) as [rs|] eqn:G; split.
  - simpl. clear. induction rs as [|r rs IH]; constructor; [|exact IH].
    repeat split.
  - intros _.
    destruct (handleSearchResume_done Q rs w1 G) as [-> _].
    destruct (handleSearchResume_done Q rs w2 G) as [-> _].
    split; reflexivity.
  - exact I.
  - intros NN. congruence.
Qed.

Lemma generateSearchResults_deterministic_witness :
  sameOutcome (generateSearchResults (lit "cooking"))
              (generateSearchResults (lit "cooking")).
Proof.
  apply (generateSearchResults_deterministic (lit "cooking") _ _
           mounted (mount (browser false false))
           eq_refl eq_refl).
Defined.

End Synthesizer.

(** ** Search orchestration *)

Section Search.

(** C2: for every query that is empty or only white space, [handleSearch]
    returns at its guard: the whole world is unchanged, so [isLoading] makes
    no transition, the results are not replaced, no timer is registered and
    nothing (no notice, no narration, no setter call) is added to the trace,
    now or at any later time. *)
Theorem handleSearch_blank_noop (q : jsstring) (w : World) :
  blank q = true ->
  handleSearch q w = w /\
  state (handleSearch q w) = state w /\
  timers (handleSearch q w) = timers w /\
  trace (handleSearch q w) = trace w /\
  forall d, elapse d (handleSearch q w) = elapse d w.
Proof.
  intros B. rewrite (handleSearch_blank q w B). repeat split.
Qed.

Lemma handleSearch_blank_noop_witness :
  blank (9 :: 160 :: lit "  ") = true /\
  handleSearch (9 :: 160 :: lit "  ") mounted =
  mount (browser true true).
Proof.
  split; [reflexivity|].
  apply (handleSearch_blank_noop (9 :: 160 :: lit "  ")
           mounted eq_refl).
Defined.

(** C3, as stated, fails: the query made of one unpaired surrogate has
    content that is not white space, yet after the delay the synthesizer
    throws, the results are not replaced, [isLoading] stays true and nothing
    is narrated. *)
Lemma handleSearch_lone_surrogate_stuck :
  blank loneSurrogate = false /\
  searchResults (state (elapse 1000 (handleSearch loneSurrogate mounted))) = [] /\
  isLoading (state (elapse 1000 (handleSearch loneSurrogate mounted))) = true /\
  trace (elapse 1000 (handleSearch loneSurrogate mounted)) =
    [SetRecognition newRecognition; SetIsLoading true; SetTimeout 1000;
     UnhandledURIError].
Proof. repeat split. Qed.

(** C3 (amended): for every query with content that is not white space and
    that is well-formed UTF-16, [handleSearch] does, in this order: set
    [isLoading] to true, start the one-second wait (with no other search
    pending nothing else happens before it is over), call the synthesizer,
    replace the results by its six results, set [isLoading] to false, and
    call the speech output with the summary sentence; for "cooking" the
    narrated text is
    "Found 6 learning resources for cooking. Click any result to start
    learning!". *)
Theorem handleSearch_sequence (q : jsstring) (w : World) :
  blank q = false -> isWellFormed q = true ->
  exists rs,
    generateSearchResults q = Some rs /\ List.length rs = 6%nat /\
    (* up to the await *)
    isLoading (state (handleSearch q w)) = true /\
    searchResults (state (handleSearch q w)) = searchResults (state w) /\
    trace (handleSearch q w) = trace w ++ [SetIsLoading true; SetTimeout 1000] /\
    timers (handleSearch q w) =
      timers w ++ [{| due := now w + 1000; pendingQuery := q |}] /\
    (* the continuation, in whatever world the timer fires *)
    (forall w',
       handleSearchResume q w' =
         speakResult (summary 6 q) (setIsLoading false (setSearchResults rs w')) /\
       searchResults (state (handleSearchResume q w')) = rs /\
       isLoading (state (handleSearchResume q w')) = false /\
       trace (handleSearchResume q w') =
         trace w' ++ [SetSearchResults rs; SetIsLoading false] ++
         (if hasSpeechSynthesis (window w')
          then [Speak (utterance (summary 6 q))] else [])) /\
    (* the whole call, when no other search is pending *)
    (timers w = [] ->
     (forall d, d < 1000 ->
        state (elapse d (handleSearch q w)) = state (handleSearch q w) /\
        trace (elapse d (handleSearch q w)) = trace (handleSearch q w)) /\
     (forall d, 1000 <= d ->
        searchResults (state (elapse d (handleSearch q w))) = rs /\
        isLoading (state (elapse d (handleSearch q w))) = false /\
        timers (elapse d (handleSearch q w)) = [] /\
        trace (elapse d (handleSearch q w)) =
          trace w ++
          [SetIsLoading true; SetTimeout 1000;
           SetSearchResults rs; SetIsLoading false] ++
          (if hasSpeechSynthesis (window w)
           then [Speak (utterance (summary 6 q))] else []))) /\
    summary 6 (lit "cooking") =
      lit "Found 6 learning resources for cooking. Click any result to start learning!".
Proof.
  intros B WF.
  destruct (generateSearchResults_returns q WF) as (rs & G & L).
  exists rs.
  rewrite (handleSearch_dispatch q w B).
  cbn [state timers trace isLoading searchResults].
  split; [exact G|]. split; [exact L|]. split; [reflexivity|].
  split; [reflexivity|]. split; [now rewrite <- app_assoc|].
  split; [reflexivity|]. split; [|split; [|reflexivity]].
  - intros w'.
    destruct (handleSearchResume_done q _ w' G) as [-> ->].
    rewrite (handleSearchResume_trace q w'). unfold resumeEffects, handleSearchResume.
    rewrite G, L. repeat split.
  - intros T. rewrite T. cbn [app]. split.
    + intros d Hd. unfold elapse. cbn [timers now List.length].
      rewrite runUntil_waits; [split; reflexivity|].
      cbn [timers now]. intros t [<-|[]]. cbn [due]. lia.
    + intros d Hd. unfold elapse. cbn [timers now List.length].
      rewrite (runUntil_one _ {| due := now w + 1000; pendingQuery := q |});
        [|reflexivity|cbn [due]; lia].
      unfold fireTimer. cbn [state window now timers trace pendingQuery due].
      match goal with |- context [handleSearchResume q ?x] => set (w1 := x) end.
      destruct (handleSearchResume_done q _ w1 G) as [-> ->].
      destruct (handleSearchResume_frame q w1) as (_ & _ & -> & _).
      rewrite (handleSearchResume_trace q w1). unfold resumeEffects. rewrite G, L.
      subst w1. cbn [timers trace window].
      repeat split. now rewrite <- !app_assoc.
Qed.

Lemma handleSearch_sequence_witness :
  blank (lit "cooking") = false /\ isWellFormed (lit "cooking") = true /\
  exists rs,
    generateSearchResults (lit "cooking") = Some rs /\
    trace (elapse 1000 (handleSearch (lit "cooking") mounted)) =
    [SetRecognition newRecognition; SetIsLoading true; SetTimeout 1000;
     SetSearchResults rs; SetIsLoading false;
     Speak (utterance (lit
       "Found 6 learning resources for cooking. Click any result to start learning!"))].
Proof.
  split; [reflexivity|]. split; [reflexivity|].
  destruct (handleSearch_sequence (lit "cooking") mounted
              eq_refl eq_refl)
    as (rs & G & _ & _ & _ & _ & _ & _ & Hwhole & _).
  exists rs. split; [exact G|].
  destruct (Hwhole eq_refl) as [_ Hdone].
  destruct (Hdone 1000) as (_ & _ & _ & ->); [discriminate|].
  reflexivity.
Defined.

End Search.

(** ** Overlapping searches *)

Section Overlap.

(** C9, as stated, fails: "cooking" is searched, and half a second later a
    query that is one unpaired surrogate.  Both timers fire, the second
    last, but its continuation throws before it writes: the final results
    are those of "cooking", not an output of the call that resolved last. *)
Lemma overlap_last_call_throws :
  blank (lit "cooking") = false /\ blank loneSurrogate = false /\
  timers overlapThrows = [] /\
  Some (searchResults (state overlapThrows)) = generateSearchResults (lit "cooking") /\
  Some (searchResults (state overlapThrows)) <> generateSearchResults loneSurrogate.
Proof. repeat split. discriminate. Qed.

(** C9 (amended): when a second [handleSearch] is dispatched before the
    delay of the first is over, both timers stay pending (neither call
    cancels the other), both continuations run, the first dispatched first;
    provided the query of the call that resolves last is well-formed UTF-16,
    the final results are the output of the synthesizer for that query. *)
Theorem overlapping_searches_last_wins (q1 q2 : jsstring) (w : World) (d d' : N) :
  timers w = [] -> blank q1 = false -> blank q2 = false ->
  isWellFormed q2 = true -> d < 1000 -> 1000 <= d' ->
  let w2 := handleSearch q2 (elapse d (handleSearch q1 w)) in
  let w' := elapse d' w2 in
  timers w2 = [{| due := now w + 1000; pendingQuery := q1 |};
               {| due := now w + d + 1000; pendingQuery := q2 |}] /\
  timers w' = [] /\
  Some (searchResults (state w')) = generateSearchResults q2 /\
  isLoading (state w') = false /\
  trace w' =
    trace w ++
    [SetIsLoading true; SetTimeout 1000; SetIsLoading true; SetTimeout 1000] ++
    resumeEffects (window w) q1 ++ resumeEffects (window w) q2.
Proof.
  intros T B1 B2 WF Hd Hd'.
  assert (E2 : handleSearch q2 (elapse d (handleSearch q1 w)) =
    {| state := {| searchQuery := searchQuery (state w);
                   isListening := isListening (state w);
                   searchResults := searchResults (state w);
                   isLoading := true;
                   recognition := recognition (state w) |};
       window := window w; now := now w + d;
       timers := [{| due := now w + 1000; pendingQuery := q1 |};
                  {| due := now w + d + 1000; pendingQuery := q2 |}];
       trace := (((trace w ++ [SetIsLoading true]) ++ [SetTimeout 1000]) ++
                 [SetIsLoading true]) ++ [SetTimeout 1000] |}).
  { rewrite (handleSearch_dispatch q1 w B1), T. cbn [app].
    unfold elapse. cbn [timers now List.length].
    rewrite runUntil_waits;
      [|cbn [timers]; intros t [<-|[]]; cbn [due]; lia].
    cbn [state window timers trace].
    rewrite handleSearch_dispatch by exact B2. reflexivity. }
  intros w2 w'. subst w' w2. rewrite E2. clear E2.
  split; [reflexivity|].
  unfold elapse. cbn [timers now List.length].
  rewrite (runUntil_two _ {| due := now w + 1000; pendingQuery := q1 |}
                          {| due := now w + d + 1000; pendingQuery := q2 |});
    [|reflexivity|cbn [due]; lia|cbn [due]; lia].
  cbn [state window now timers trace].
  unfold fireTimer. cbn [pendingQuery due].
  match goal with
  | |- context [handleSearchResume q1 ?x] => set (a := x)
  end.
  destruct (handleSearchResume_frame q1 a) as (Wa & _ & _).
  pose proof (handleSearchResume_trace q1 a) as Ta.
  set (a' := handleSearchResume q1 a) in *.
  match goal with
  | |- context [handleSearchResume q2 ?x] => set (b := x)
  end.
  apply encodeURIComponent_total in WF as [e He].
  destruct (generateSearchResults q2) as [rs|] eqn:G;
    [|unfold generateSearchResults in G; rewrite He in G; discriminate].
  destruct (handleSearchResume_done q2 rs b G) as [-> ->].
  destruct (handleSearchResume_frame q2 b) as (_ & _ & -> & _).
  rewrite (handleSearchResume_trace q2 b).
  subst b. cbn [timers trace window]. rewrite Ta, Wa. subst a.
  cbn [trace window]. repeat split.
  rewrite <- !app_assoc. reflexivity.
Qed.

Lemma overlapping_searches_last_wins_witness :
  timers overlapTwoTopics = [] /\
  Some (searchResults (state overlapTwoTopics)) =
  generateSearchResults (lit "photography").
Proof.
  assert (D : 300 < 1000) by reflexivity.
  assert (D' : 1000 <= 1000) by discriminate.
  destruct (overlapping_searches_last_wins (lit "cooking") (lit "photography")
              mounted 300 1000
              eq_refl eq_refl eq_refl eq_refl D D')
    as (_ & Hdone & Hres & _).
  split; [exact Hdone|exact Hres].
Defined.

End Overlap.

(** ** The untrimmed query *)

Section Untrimmed.

(** C10, as stated, fails: a space followed by an unpaired surrogate has
    leading white space and content that is not white space, and
    [handleSearch] lets it pass, but the synthesizer throws: there are no
    six titles, and the results stay empty. *)
Lemma untrimmed_lone_surrogate :
  blank (32 :: loneSurrogate) = false /\ isWhiteSpace 32 = true /\
  generateSearchResults (32 :: loneSurrogate) = None /\
  searchResults
    (state (elapse 1000 (handleSearch (32 :: loneSurrogate) mounted))) = [].
Proof. repeat split. Qed.

(** C10 (amended): [handleSearch] tests the trimmed query and hands the raw
    one to the synthesizer.  For every well-formed UTF-16 query with content
    that is not white space, the pending continuation holds the query
    untrimmed; all six titles, descriptions and snippets contain it
    untrimmed; the five percent-encoded URLs contain the encoding of the
    whole query, which starts with the escape of a leading white-space unit
    and ends with the escape of a trailing one ([%20] for a space); and the
    encyclopedia URL has an underscore in place of leading white space and
    of trailing white space. *)
Theorem handleSearch_passes_untrimmed (q : jsstring) (w : World) :
  blank q = false -> isWellFormed q = true ->
  timers (handleSearch q w) =
    timers w ++ [{| due := now w + 1000; pendingQuery := q |}] /\
  exists e r1 rest,
    encodeURIComponent q = Some e /\
    generateSearchResults q = Some (r1 :: rest) /\
    List.length (r1 :: rest) = 6%nat /\
    (forall w', searchResults (state (handleSearchResume q w')) = r1 :: rest) /\
    Forall (fun r => includes (title r) q = true /\
                     includes (description r) q = true /\
                     includes (snippet r) q = true) (r1 :: rest) /\
    Forall (fun r => includes (url r) e = true) rest /\
    url r1 = lit "https://en.wikipedia.org/wiki/" ++ replaceWhitespace q /\
    (forall c t, q = c :: t -> isWhiteSpace c = true ->
       (exists e', e = escapeCodePoint c ++ e') /\
       (exists u, replaceWhitespace q = underscore :: u)) /\
    (forall c t, q = t ++ [c] -> isWhiteSpace c = true ->
       (exists e', e = e' ++ escapeCodePoint c) /\
       (exists u, replaceWhitespace q = u ++ [underscore])) /\
    escapeCodePoint 32 = lit "%20".
Proof.
  intros B WF. rewrite (handleSearch_dispatch q w B). cbn [timers].
  split; [reflexivity|].
  destruct (proj1 (encodeURIComponent_total q) WF) as [e He].
  assert (G : generateSearchResults q = generateSearchResults q) by reflexivity.
  unfold generateSearchResults at 2 in G. rewrite He in G.
  exists e. do 2 eexists. split; [exact He|]. split; [exact G|].
  split; [reflexivity|]. split; [|split; [|split; [|split; [reflexivity|]]]].
  - intros w'. now destruct (handleSearchResume_done q _ w' G) as [-> _].
  - repeat constructor; cbn [title description snippet];
      first [apply includes_app_r | apply includes_app_mid | apply includes_app_l].
  - repeat constructor; cbn [url];
      first [apply includes_app_mid | apply includes_app_l].
  - split; [|split; [|reflexivity]].
    + intros c t -> W. split.
      * destruct (encodeURIComponent_cons_ws c t e W He) as (e' & _ & ->). eauto.
      * unfold replaceWhitespace. simpl. rewrite W. eauto.
    + intros c t -> W. split.
      * destruct (encodeURIComponent_snoc_ws c t W e He) as (e' & _ & ->). eauto.
      * unfold replaceWhitespace. apply replaceRuns_snoc; auto.
Qed.

Lemma handleSearch_passes_untrimmed_witness :
  blank (lit " cooking ") = false /\ isWellFormed (lit " cooking ") = true /\
  exists e, encodeURIComponent (lit " cooking ") = Some e /\
            e = lit "%20cooking%20" /\
            replaceWhitespace (lit " cooking ") = lit "_cooking_".
Proof.
  split; [reflexivity|]. split; [reflexivity|].
  destruct (handleSearch_passes_untrimmed (lit " cooking ")
              mounted eq_refl eq_refl)
    as (_ & e & r1 & rest & He & _).
  exists e. split; [exact He|]. split; [|reflexivity].
  vm_compute in He. now injection He as <-.
Defined.

End Untrimmed.

(** ** Speech input *)

Section SpeechInput.

Lemma handleSearch_recognition (q : jsstring) (w : World) :
  recognition (state (handleSearch q w)) = recognition (state w).
Proof.
  destruct (blank q) eqn:B.
  - now rewrite handleSearch_blank.
  - now rewrite handleSearch_dispatch.
Qed.

Lemma runUntil_recognition (fuel : nat) (target : N) (w : World) :
  recognition (state (runUntil fuel target w)) = recognition (state w).
Proof.
  revert w. induction fuel as [|fuel IH]; intros w; simpl; [reflexivity|].
  destruct (nextTimer (timers w)) as [[t r]|]; [|reflexivity].
  destruct (due t <=? target); [|reflexivity].
  rewrite IH. unfold fireTimer.
  now destruct (handleSearchResume_frame (pendingQuery t)
    {| state := state w; window := window w; now := N.max (now w) (due t);
       timers := r; trace := trace w |}) as (_ & _ & _ & -> & _).
Qed.

(** Only the mount effect ever sets [recognition]. *)
Lemma step_recognition (e : Event) (w : World) :
  recognition (state (step e w)) = recognition (state w).
Proof.
  destruct e; simpl; try reflexivity.
  - unfold onSearchSubmit, andThen. now rewrite handleSearch_recognition.
  - unfold micClick, stopVoiceRecognition, startVoiceRecognition.
    destruct (isListening (state w)), (recognition (state w)) eqn:R;
      simpl; congruence.
  - apply handleSearch_recognition.
  - unfold speakButtonClick, andThen.
    now destruct (speakResult_frame (snippet r) (emit StopPropagation w)) as [-> _].
  - unfold readResultsClick.
    now destruct (speakResult_frame
      (summary (List.length (searchResults (state w))) (searchQuery (state w))) w)
      as [-> _].
  - unfold onresult, andThen. now rewrite handleSearch_recognition.
  - unfold elapse. cbn [state]. apply runUntil_recognition.
Qed.

Lemma run_recognition (es : list Event) (w : World) :
  recognition (state (run es w)) = recognition (state w).
Proof.
  unfold run. revert w. induction es as [|e es IH]; intros w; simpl; [reflexivity|].
  now rewrite IH, step_recognition.
Qed.

(** C4, as stated, fails: the result handler does not touch [isListening].
    While the component is listening, a transcript leaves it listening. *)
Lemma onresult_keeps_listening :
  isListening (state (onstart mounted)) = true /\
  isListening (state (onresult (lit "cooking") (onstart mounted))) = true.
Proof. split; reflexivity. Qed.

(** C4 (amended): for every transcript, the result handler stores the
    transcript as the query and at once calls [handleSearch] with it, with
    nothing in between (no confirmation step); it leaves [isListening] as it
    was.  [isListening] becomes false in the end handler, which runs when
    the recognition session ends after the result; after both, the query is
    the transcript and the search for it is under way. *)
Theorem onresult_then_onend (t : jsstring) (w : World) :
  let w1 := onresult t w in
  let w2 := onend w1 in
  w1 = handleSearch t (setSearchQuery t w) /\
  searchQuery (state w1) = t /\
  isListening (state w1) = isListening (state w) /\
  trace w1 = trace w ++ SetSearchQuery t ::
             (if blank t then [] else [SetIsLoading true; SetTimeout 1000]) /\
  timers w1 = timers w ++
              (if blank t then []
               else [{| due := now w + 1000; pendingQuery := t |}]) /\
  isListening (state w2) = false /\
  searchQuery (state w2) = t /\
  timers w2 = timers w1 /\
  trace w2 = trace w1 ++ [SetIsListening false] /\
  run [RecognitionResult t; RecognitionEnded] w = w2.
Proof.
  intros w1 w2. subst w2 w1. unfold onresult, andThen.
  destruct (blank t) eqn:B.
  - rewrite handleSearch_blank by exact B. simpl.
    rewrite app_nil_r. repeat split.
    unfold run. simpl. unfold onresult, andThen.
    rewrite handleSearch_blank by exact B. reflexivity.
  - rewrite handleSearch_dispatch by exact B. simpl.
    rewrite <- !app_assoc. repeat split.
    unfold run. simpl. unfold onresult, andThen.
    rewrite handleSearch_dispatch by exact B. simpl.
    now rewrite <- !app_assoc.
Qed.

(** C5: for every recognition error, the error handler sets [isListening]
    to false and shows the error notice, and the query, the results, the
    loading flag and the pending searches are as before. *)
Theorem onerror_preserves_search (error : jsstring) (w : World) :
  let w' := onerror error w in
  isListening (state w') = false /\
  trace w' = trace w ++
    [ConsoleError (lit "Speech recognition error:") error;
     SetIsListening false;
     Toast (lit "Voice Recognition Error")
           (lit "Please try again or use text input") Destructive] /\
  searchQuery (state w') = searchQuery (state w) /\
  searchResults (state w') = searchResults (state w) /\
  isLoading (state w') = isLoading (state w) /\
  recognition (state w') = recognition (state w) /\
  timers w' = timers w /\
  step (RecognitionError error) w = w'.
Proof.
  simpl. rewrite <- !app_assoc. repeat split.
Qed.

(** C6: in a browser without speech recognition, at any time after
    mounting, an attempt to start voice recognition shows the "not
    supported" notice and nothing else: no call on a missing object, and the
    state ([isListening] included) and the pending searches are unchanged. *)
Theorem startVoiceRecognition_unsupported (win : Window) (es : list Event) :
  hasSpeechRecognition win = false ->
  let w := run es (mount win) in
  recognition (state w) = None /\
  state (startVoiceRecognition w) = state w /\
  isListening (state (startVoiceRecognition w)) = isListening (state w) /\
  timers (startVoiceRecognition w) = timers w /\
  trace (startVoiceRecognition w) = trace w ++
    [Toast (lit "Voice Recognition Not Supported")
           (lit "Your browser doesn't support voice recognition") Destructive] /\
  (isListening (state w) = false -> step MicClick w = startVoiceRecognition w).
Proof.
  intros H w.
  assert (R : recognition (state w) = None).
  { subst w. rewrite run_recognition. unfold mount, initialise. simpl.
    now rewrite H. }
  split; [exact R|]. unfold startVoiceRecognition. rewrite R. simpl.
  repeat split. intros L. unfold micClick, startVoiceRecognition.
  now rewrite L, R.
Qed.

Lemma startVoiceRecognition_unsupported_witness :
  trace (startVoiceRecognition (mount (browser false true))) =
  [ConsoleWarn (lit "Speech recognition not supported");
   Toast (lit "Voice Recognition Not Supported")
         (lit "Your browser doesn't support voice recognition") Destructive].
Proof.
  destruct (startVoiceRecognition_unsupported (browser false true) [] eq_refl)
    as (_ & _ & _ & _ & T & _).
  exact T.
Defined.

End SpeechInput.

(** ** Speech output *)

Section SpeechOutput.

(** C7: for every text, [speakResult] with speech synthesis present speaks
    one utterance of that text at rate 0.8 (below the default 1), pitch 1
    (the default) and volume 0.8 (below the default 1), and changes nothing
    else; with speech synthesis absent it does nothing at all. *)
Theorem speakResult_profile (t : jsstring) (w : World) :
  (hasSpeechSynthesis (window w) = true ->
   exists u,
     speakResult t w = emit (Speak u) w /\
     trace (speakResult t w) = trace w ++ [Speak u] /\
     state (speakResult t w) = state w /\
     text u = t /\
     (rate u == 0.8)%Q /\ (rate u < defaultRate)%Q /\
     (pitch u == defaultPitch)%Q /\
     (volume u == 0.8)%Q /\ (volume u < defaultVolume)%Q) /\
  (hasSpeechSynthesis (window w) = false -> speakResult t w = w).
Proof.
  unfold speakResult. split; intros ->; [|reflexivity].
  exists (utterance t). repeat split.
Qed.

Lemma speakResult_profile_witness :
  (exists u, speakResult (lit "hello") mounted =
             emit (Speak u) mounted /\ text u = lit "hello") /\
  speakResult (lit "hello") (mount (browser true false)) = mount (browser true false).
Proof.
  split.
  - destruct (proj1 (speakResult_profile (lit "hello") mounted)
                eq_refl) as (u & E & _ & _ & T & _).
    exists u. split; [exact E|exact T].
  - exact (proj2 (speakResult_profile (lit "hello") (mount (browser true false)))
             eq_refl).
Defined.

End SpeechOutput.

(** ** Further properties of the component *)

(** *** Timers and reachable worlds *)

Section Reachable.

Lemma nextTimer_none (l : list Timer) : nextTimer l = None -> l = [].
Proof.
  destruct l as [|x l]; [reflexivity|]. simpl.
  destruct (nextTimer l) as [[m r]|]; [destruct (due x <=? due m)|]; discriminate.
Qed.

Lemma nextTimer_spec (l r : list Timer) (m : Timer) :
  nextTimer l = Some (m, r) ->
  In m l /\ List.length l = S (List.length r) /\
  forall P : Timer -> Prop, Forall P l -> Forall P r.
Proof.
  revert r m. induction l as [|x l IH]; simpl; [discriminate|].
  intros r m. destruct (nextTimer l) as [[m' r']|] eqn:E.
  - destruct (IH r' m' eq_refl) as (I & L & F).
    destruct (due x <=? due m'); intros [= <- <-].
    + split; [now left|]. split; [reflexivity|].
      intros P H. now inversion H.
    + split; [now right|]. split; [simpl; lia|].
      intros P H. inversion H; subst. constructor; auto.
  - intros [= <- <-]. apply nextTimer_none in E. subst l.
    split; [now left|]. split; [reflexivity|]. intros P H. constructor.
Qed.

(** A timer registered last and due last is chosen after all the others. *)
Lemma nextTimer_snoc (l : list Timer) (t : Timer) :
  l <> [] -> Forall (fun x => due x <= due t) l ->
  exists m r, nextTimer l = Some (m, r) /\
              nextTimer (l ++ [t]) = Some (m, r ++ [t]).
Proof.
  induction l as [|x l IH]; [congruence|]. intros _ F.
  inversion F as [|? ? Hx Hl]; subst.
  destruct l as [|y l].
  - exists x, []. simpl. apply N.leb_le in Hx. now rewrite Hx.
  - destruct IH as (m & r & E1 & E2); [discriminate|exact Hl|].
    change (nextTimer (x :: y :: l)) with
      (match nextTimer (y :: l) with
       | None => Some (x, [])
       | Some (m, r') =>
           if due x <=? due m then Some (x, y :: l) else Some (m, x :: r')
       end).
    change (nextTimer ((x :: y :: l) ++ [t])) with
      (match nextTimer ((y :: l) ++ [t]) with
       | None => Some (x, [])
       | Some (m, r') =>
           if due x <=? due m then Some (x, (y :: l) ++ [t])
           else Some (m, x :: r')
       end).
    rewrite E1, E2. destruct (due x <=? due m); eauto.
Qed.

Lemma fireTimer_frame (t : Timer) (r : list Timer) (w : World) :
  timers (fireTimer t r w) = r /\ window (fireTimer t r w) = window w.
Proof.
  unfold fireTimer.
  destruct (handleSearchResume_frame (pendingQuery t)
    {| state := state w; window := window w; now := N.max (now w) (due t);
       timers := r; trace := trace w |}) as (-> & _ & -> & _).
  split; reflexivity.
Qed.

(** What the continuation of a search keeps, the timers keep when they fire. *)
Lemma runUntil_state (P : State -> Prop) (fuel : nat) (target : N) (w : World) :
  (forall q w', P (state w') -> P (state (handleSearchResume q w'))) ->
  P (state w) -> P (state (runUntil fuel target w)).
Proof.
  intros HP. revert w. induction fuel as [|fuel IH]; intros w H; simpl; [exact H|].
  destruct (nextTimer (timers w)) as [[t r]|]; [|exact H].
  destruct (due t <=? target); [|exact H].
  apply IH. unfold fireTimer. apply HP. exact H.
Qed.

Lemma runUntil_window (fuel : nat) (target : N) (w : World) :
  window (runUntil fuel target w) = window w.
Proof.
  revert w. induction fuel as [|fuel IH]; intros w; simpl; [reflexivity|].
  destruct (nextTimer (timers w)) as [[t r]|]; [|reflexivity].
  destruct (due t <=? target); [|reflexivity].
  rewrite IH. apply fireTimer_frame.
Qed.

Lemma runUntil_timers (P : Timer -> Prop) (fuel : nat) (target : N) (w : World) :
  Forall P (timers w) -> Forall P (timers (runUntil fuel target w)).
Proof.
  revert w. induction fuel as [|fuel IH]; intros w H; simpl; [exact H|].
  destruct (nextTimer (timers w)) as [[t r]|] eqn:E; [|exact H].
  destruct (due t <=? target); [|exact H].
  apply IH. destruct (fireTimer_frame t r w) as [-> _].
  now apply (nextTimer_spec _ _ _ E).
Qed.

(** Once every pending timer is due, they all fire. *)
Lemma runUntil_drains (fuel : nat) (target : N) (w : World) :
  Forall (fun t => due t <= target) (timers w) ->
  (List.length (timers w) <= fuel)%nat ->
  timers (runUntil fuel target w) = [].
Proof.
  revert w. induction fuel as [|fuel IH]; intros w F L; simpl.
  - destruct (timers w); [reflexivity|simpl in L; lia].
  - destruct (nextTimer (timers w)) as [[t r]|] eqn:E;
      [|now apply nextTimer_none].
    destruct (nextTimer_spec _ _ _ E) as (I & Len & Sub).
    assert (D : due t <= target).
    { rewrite Forall_forall in F. now apply F. }
    apply N.leb_le in D. rewrite D.
    destruct (fireTimer_frame t r w) as [T _].
    apply IH; rewrite T; [now apply Sub|lia].
Qed.

Lemma runUntil_step (fuel : nat) (target : N) (t : Timer) (r : list Timer)
  (w : World) :
  nextTimer (timers w) = Some (t, r) -> due t <= target ->
  runUntil (S fuel) target w = runUntil fuel target (fireTimer t r w).
Proof. intros E D. simpl. apply N.leb_le in D. now rewrite E, D. Qed.

(** The timer registered last and due last fires last: the run ends with
    its continuation. *)
Lemma runUntil_last (n : nat) :
  forall (l : list Timer) (t : Timer) (target : N) (w : World),
  List.length l = n -> timers w = l ++ [t] ->
  Forall (fun x => due x <= due t) l -> due t <= target ->
  exists w0, runUntil (S n) target w = handleSearchResume (pendingQuery t) w0 /\
             window w0 = window w /\ timers w0 = [].
Proof.
  induction n as [|n IH]; intros l t target w L T F D.
  - destruct l; [|discriminate]. simpl in T.
    rewrite (runUntil_one target t w T D). unfold fireTimer. eauto.
  - destruct (nextTimer_snoc l t) as (m & r & E1 & E2);
      [intros ->; discriminate|exact F|].
    destruct (nextTimer_spec _ _ _ E1) as (I & Len & Sub).
    assert (Dm : due m <= target).
    { rewrite Forall_forall in F. specialize (F m I). lia. }
    rewrite (runUntil_step (S n) target m (r ++ [t]) w);
      [|now rewrite T|exact Dm].
    destruct (fireTimer_frame m (r ++ [t]) w) as [Tm Wm].
    destruct (IH r t target (fireTimer m (r ++ [t]) w)) as (w0 & R & W0 & T0);
      [lia|exact Tm|now apply Sub|exact D|].
    exists w0. rewrite R, W0, Wm. auto.
Qed.

Lemma run_app (es es' : list Event) (w : World) :
  run (es ++ es') w = run es' (run es w).
Proof. unfold run. apply fold_left_app. Qed.

Lemma handleSearch_clock (q : jsstring) (w : World) :
  now (handleSearch q w) = now w /\ window (handleSearch q w) = window w /\
  (timers (handleSearch q w) = timers w \/
   blank q = false /\
   timers (handleSearch q w) =
     timers w ++ [{| due := now w + 1000; pendingQuery := q |}]).
Proof.
  destruct (blank q) eqn:B.
  - rewrite handleSearch_blank by exact B. auto.
  - rewrite handleSearch_dispatch by exact B. simpl. auto.
Qed.

Lemma handleSearch_cells (q : jsstring) (w : World) :
  searchQuery (state (handleSearch q w)) = searchQuery (state w) /\
  isListening (state (handleSearch q w)) = isListening (state w) /\
  searchResults (state (handleSearch q w)) = searchResults (state w).
Proof.
  destruct (blank q) eqn:B.
  - rewrite handleSearch_blank by exact B. auto.
  - rewrite handleSearch_dispatch by exact B. simpl. auto.
Qed.

Lemma elapse_cells (d : N) (w : World) :
  searchQuery (state (elapse d w)) = searchQuery (state w) /\
  isListening (state (elapse d w)) = isListening (state w) /\
  window (elapse d w) = window w /\ now (elapse d w) = now w + d.
Proof.
  unfold elapse. cbn [state window now]. rewrite runUntil_window.
  enough (searchQuery (state (runUntil (List.length (timers w)) (now w + d) w))
            = searchQuery (state w) /\
          isListening (state (runUntil (List.length (timers w)) (now w + d) w))
            = isListening (state w)) by tauto.
  apply (runUntil_state
           (fun s => searchQuery s = searchQuery (state w) /\
                     isListening s = isListening (state w))); [|auto].
  intros q w' [Hq Hl].
  destruct (handleSearchResume_frame q w') as (_ & _ & _ & _ & -> & ->). auto.
Qed.

Lemma step_window (e : Event) (w : World) : window (step e w) = window w.
Proof.
  destruct e; simpl; try reflexivity.
  - unfold onSearchSubmit, andThen. now destruct (handleSearch_clock
      (searchQuery (state (emit PreventDefault w))) (emit PreventDefault w))
      as (_ & -> & _).
  - unfold micClick, stopVoiceRecognition, startVoiceRecognition.
    destruct (isListening (state w)), (recognition (state w)); reflexivity.
  - now destruct (handleSearch_clock (topicQuery topic) w) as (_ & -> & _).
  - unfold speakButtonClick, andThen.
    now destruct (speakResult_frame (snippet r) (emit StopPropagation w))
      as (_ & -> & _).
  - unfold readResultsClick.
    now destruct (speakResult_frame
      (summary (List.length (searchResults (state w))) (searchQuery (state w))) w)
      as (_ & -> & _).
  - unfold onresult, andThen.
    now destruct (handleSearch_clock transcript (setSearchQuery transcript w))
      as (_ & -> & _).
  - apply elapse_cells.
Qed.

Lemma run_window (es : list Event) (w : World) : window (run es w) = window w.
Proof.
  unfold run. revert w. induction es as [|e es IH]; intros w; simpl; [reflexivity|].
  now rewrite IH, step_window.
Qed.

Lemma mount_window (win : Window) : window (mount win) = win.
Proof. unfold mount, initialise. simpl. now destruct (hasSpeechRecognition win). Qed.

Lemma timersBounded_snoc (q : jsstring) (w w' : World) :
  timersBounded w -> now w' = now w ->
  timers w' = timers w \/
  timers w' = timers w ++ [{| due := now w + 1000; pendingQuery := q |}] ->
  timersBounded w'.
Proof.
  unfold timersBounded. intros B N [T|T]; rewrite T, N; [exact B|].
  apply Forall_app. split; [exact B|]. constructor; [simpl; lia|constructor].
Qed.

Lemma handleSearch_timersBounded (q : jsstring) (w : World) :
  timersBounded w -> timersBounded (handleSearch q w).
Proof.
  intros B. destruct (handleSearch_clock q w) as (N & _ & T).
  apply (timersBounded_snoc q w); [exact B|exact N|tauto].
Qed.

Lemma elapse_timersBounded (d : N) (w : World) :
  timersBounded w -> timersBounded (elapse d w).
Proof.
  unfold timersBounded, elapse. cbn [timers now]. intros B.
  apply runUntil_timers. eapply Forall_impl; [|exact B].
  simpl. intros t H. lia.
Qed.

Lemma step_timersBounded (e : Event) (w : World) :
  timersBounded w -> timersBounded (step e w).
Proof.
  intros B. destruct e; simpl; try exact B.
  - unfold onSearchSubmit, andThen. now apply handleSearch_timersBounded.
  - unfold micClick, stopVoiceRecognition, startVoiceRecognition.
    destruct (isListening (state w)), (recognition (state w)); exact B.
  - now apply handleSearch_timersBounded.
  - unfold speakButtonClick, andThen, timersBounded.
    destruct (speakResult_frame (snippet r) (emit StopPropagation w))
      as (_ & _ & -> & ->). exact B.
  - unfold readResultsClick, timersBounded.
    destruct (speakResult_frame
      (summary (List.length (searchResults (state w))) (searchQuery (state w))) w)
      as (_ & _ & -> & ->). exact B.
  - unfold onresult, andThen. now apply handleSearch_timersBounded.
  - now apply elapse_timersBounded.
Qed.

Lemma mount_timersBounded (win : Window) : timersBounded (mount win).
Proof.
  unfold timersBounded, mount, initialise. simpl.
  destruct (hasSpeechRecognition win); constructor.
Qed.

Lemma run_timersBounded (es : list Event) (w : World) :
  timersBounded w -> timersBounded (run es w).
Proof.
  unfold run. revert w. induction es as [|e es IH]; intros w B; simpl; [exact B|].
  now apply IH, step_timersBounded.
Qed.

(** Whatever else is pending, the search dispatched last is the one whose
    results stand once its delay is over. *)
Lemma settle_bounded (q : jsstring) (d : N) (w : World) :
  timersBounded w -> blank q = false -> isWellFormed q = true -> 1000 <= d ->
  exists rs,
    generateSearchResults q = Some rs /\ List.length rs = 6%nat /\
    timers (elapse d (handleSearch q w)) = [] /\
    searchResults (state (elapse d (handleSearch q w))) = rs /\
    isLoading (state (elapse d (handleSearch q w))) = false /\
    searchQuery (state (elapse d (handleSearch q w))) = searchQuery (state w) /\
    isListening (state (elapse d (handleSearch q w))) = isListening (state w).
Proof.
  intros Bd B WF D.
  destruct (generateSearchResults_returns q WF) as (rs & G & L).
  exists rs. split; [exact G|]. split; [exact L|].
  destruct (elapse_cells d (handleSearch q w)) as (-> & -> & _).
  destruct (handleSearch_cells q w) as (-> & -> & _).
  rewrite (handleSearch_dispatch q w B).
  unfold elapse. cbn [state timers now].
  replace (List.length (timers w ++ [{| due := now w + 1000; pendingQuery := q |}]))
    with (S (List.length (timers w))) by (rewrite length_app; simpl; lia).
  match goal with |- context [runUntil _ _ ?x] => set (w1 := x) end.
  destruct (runUntil_last (List.length (timers w)) (timers w)
              {| due := now w + 1000; pendingQuery := q |} (now w + d) w1)
    as (w0 & R & _ & T0); [reflexivity|reflexivity|exact Bd|simpl; lia|].
  rewrite R. cbn [pendingQuery].
  destruct (handleSearchResume_done q rs w0 G) as [-> ->].
  destruct (handleSearchResume_frame q w0) as (_ & _ & -> & _).
  auto.
Qed.

End Reachable.

(** *** The links the synthesizer builds *)

Section Links.

Lemma illFormed_throws (q : jsstring) :
  isWellFormed q = false -> generateSearchResults q = None.
Proof.
  intros WF. unfold generateSearchResults.
  destruct (encodeURIComponent q) as [e|] eqn:E; [|reflexivity].
  assert (isWellFormed q = true) by (apply encodeURIComponent_total; eauto).
  congruence.
Qed.

Lemma generateSearchResults_length (q : jsstring) (rs : list SearchResult) :
  generateSearchResults q = Some rs -> List.length rs = 6%nat.
Proof.
  unfold generateSearchResults. destruct (encodeURIComponent q); [|discriminate].
  now intros [= <-].
Qed.

(** X1: the synthesizer throws exactly on the queries that hold an unpaired
    surrogate; on every other query, the empty one included, it returns. *)
Theorem generateSearchResults_throws_iff (Q : jsstring) :
  generateSearchResults Q = None <-> isWellFormed Q = false.
Proof.
  split; [|apply illFormed_throws].
  intros G. destruct (isWellFormed Q) eqn:WF; [|reflexivity].
  destruct (generateSearchResults_returns Q WF) as (rs & G' & _). congruence.
Qed.

Lemma hexDigit_unreserved (d : N) : d < 16 -> isUnreserved (hexDigit d) = true.
Proof.
  intros H. unfold hexDigit. destruct (d <? 10) eqn:E.
  - apply N.ltb_lt in E. unfold isUnreserved.
    rewrite ?orb_true_iff, ?andb_true_iff, ?N.leb_le, ?N.eqb_eq. lia.
  - apply N.ltb_ge in E. unfold isUnreserved.
    rewrite ?orb_true_iff, ?andb_true_iff, ?N.leb_le, ?N.eqb_eq. lia.
Qed.

Lemma escapeOctet_escaped (o : N) : o < 256 -> forallb escaped (escapeOctet o) = true.
Proof.
  intros H. unfold escapeOctet, escaped. cbn [forallb].
  rewrite !hexDigit_unreserved.
  - reflexivity.
  - apply N.mod_lt. discriminate.
  - apply N.Div0.div_lt_upper_bound; exact H.
Qed.

Lemma utf8_octets (cp : N) : cp < 1114112 -> Forall (fun o => o < 256) (utf8 cp).
Proof.
  intros H. unfold utf8.
  assert (M : forall a, a mod 64 < 64) by (intros a; apply N.mod_lt; discriminate).
  destruct (cp <? 128) eqn:E1; [apply N.ltb_lt in E1; repeat constructor; lia|].
  destruct (cp <? 2048) eqn:E2.
  { apply N.ltb_lt in E2.
    assert (cp / 64 < 32) by (apply N.Div0.div_lt_upper_bound; exact E2).
    pose proof (M cp). repeat constructor; lia. }
  destruct (cp <? 65536) eqn:E3.
  { apply N.ltb_lt in E3.
    assert (cp / 4096 < 16) by (apply N.Div0.div_lt_upper_bound; exact E3).
    pose proof (M cp). pose proof (M (cp / 64)). repeat constructor; lia. }
  assert (cp / 262144 < 5) by (apply N.Div0.div_lt_upper_bound; lia).
  pose proof (M cp). pose proof (M (cp / 64)). pose proof (M (cp / 4096)).
  repeat constructor; lia.
Qed.

Lemma escapeCodePoint_escaped (cp : N) :
  cp < 1114112 -> forallb escaped (escapeCodePoint cp) = true.
Proof.
  intros H. unfold escapeCodePoint. pose proof (utf8_octets cp H) as F.
  induction F as [|o os Ho _ IH]; cbn [flat_map]; [reflexivity|].
  rewrite forallb_app, IH, andb_true_r. now apply escapeOctet_escaped.
Qed.

Lemma surrogatePair_bound (c d : code_unit) :
  isLeadingSurrogate c = true -> isTrailingSurrogate d = true ->
  surrogatePair c d < 1114112.
Proof.
  unfold isLeadingSurrogate, isTrailingSurrogate, surrogatePair.
  rewrite !andb_true_iff, !N.leb_le. lia.
Qed.

(** The output of [encodeURIComponent] holds only unreserved characters
    and percent signs. *)
Lemma encodeURIComponent_escaped (s : jsstring) :
  forallb is_code_unit s = true ->
  forall e, encodeURIComponent s = Some e -> forallb escaped e = true.
Proof.
  pattern s; apply pair_induction; clear s; [|intros c|intros c d t IHt IHd].
  - intros _ e [= <-]. reflexivity.
  - simpl. rewrite andb_true_r. unfold is_code_unit. intros U e.
    apply N.ltb_lt in U.
    destruct (isUnreserved c) eqn:Ec.
    + intros [= <-]. simpl. unfold escaped at 1. now rewrite Ec.
    + destruct (isLeadingSurrogate c); [discriminate|].
      destruct (isTrailingSurrogate c); [discriminate|].
      intros [= <-]. rewrite app_nil_r. apply escapeCodePoint_escaped. lia.
  - intros U e.
    change (forallb is_code_unit (c :: d :: t)) with
      (is_code_unit c && forallb is_code_unit (d :: t)) in U.
    apply andb_true_iff in U as [Uc Ud].
    assert (Ut : forallb is_code_unit t = true).
    { simpl in Ud. now apply andb_true_iff in Ud. }
    unfold is_code_unit in Uc. apply N.ltb_lt in Uc.
    change (encodeURIComponent (c :: d :: t)) with
      (if isUnreserved c then option_map (cons c) (encodeURIComponent (d :: t))
       else if isLeadingSurrogate c then
         if isTrailingSurrogate d
         then option_map (app (escapeCodePoint (surrogatePair c d)))
                         (encodeURIComponent t)
         else None
       else if isTrailingSurrogate c then None
       else option_map (app (escapeCodePoint c)) (encodeURIComponent (d :: t))).
    destruct (isUnreserved c) eqn:Ec.
    + destruct (encodeURIComponent (d :: t)) as [e1|]; [|discriminate].
      intros [= <-]. simpl. unfold escaped at 1. rewrite Ec. simpl.
      now apply IHd.
    + destruct (isLeadingSurrogate c) eqn:El.
      * destruct (isTrailingSurrogate d) eqn:Et; [|discriminate].
        destruct (encodeURIComponent t) as [e1|]; [|discriminate].
        intros [= <-]. rewrite forallb_app, (IHt Ut e1 eq_refl), andb_true_r.
        apply escapeCodePoint_escaped. now apply surrogatePair_bound.
      * destruct (isTrailingSurrogate c); [discriminate|].
        destruct (encodeURIComponent (d :: t)) as [e1|]; [|discriminate].
        intros [= <-]. rewrite forallb_app, (IHd Ud e1 eq_refl), andb_true_r.
        apply escapeCodePoint_escaped. lia.
Qed.

Lemma escaped_printable (c : code_unit) : escaped c = true -> printable c = true.
Proof.
  unfold escaped, printable, isUnreserved, percent.
  rewrite ?orb_true_iff, ?andb_true_iff, ?N.leb_le, ?N.eqb_eq. lia.
Qed.

Lemma forallb_impl (f g : code_unit -> bool) (s : jsstring) :
  (forall c, f c = true -> g c = true) ->
  forallb f s = true -> forallb g s = true.
Proof.
  intros H. induction s as [|c s IH]; simpl; [reflexivity|].
  rewrite !andb_true_iff. intros [Hc Hs]. auto.
Qed.

(** X2: for every query of UTF-16 code units on which the synthesizer
    returns, the encoded query holds nothing but unreserved characters and
    percent signs (so no white space, [&], [=], [#], [/] or [?] of the
    query reaches a search URL unescaped), and the five search URLs are
    printable ASCII throughout. *)
Theorem search_urls_are_escaped (Q : jsstring) (rs : list SearchResult) :
  forallb is_code_unit Q = true -> generateSearchResults Q = Some rs ->
  exists e,
    encodeURIComponent Q = Some e /\
    forallb escaped e = true /\
    Forall (fun r => forallb printable (url r) = true) (tl rs).
Proof.
  intros U. unfold generateSearchResults.
  destruct (encodeURIComponent Q) as [e|] eqn:E; [|discriminate].
  intros [= <-]. exists e. split; [reflexivity|].
  pose proof (encodeURIComponent_escaped Q U e E) as Esc.
  split; [exact Esc|].
  pose proof (forallb_impl escaped printable e escaped_printable Esc) as Pr.
  cbn [tl].
  repeat (apply Forall_cons;
          [cbn [url]; simpl; rewrite ?forallb_app, Pr; reflexivity|]).
  apply Forall_nil.
Qed.

Lemma search_urls_are_escaped_witness :
  exists e, encodeURIComponent (lit "a&b=c #d") = Some e /\
            forallb escaped e = true.
Proof.
  destruct (generateSearchResults (lit "a&b=c #d")) as [rs|] eqn:G;
    [|discriminate].
  destruct (search_urls_are_escaped (lit "a&b=c #d") rs eq_refl G)
    as (e & E & Esc & _).
  exists e. split; [exact E|exact Esc].
Defined.

End Links.

Section ArticleLink.

Lemma replaceRuns_no_whitespace (b : bool) (s : jsstring) :
  forallb (fun c => negb (isWhiteSpace c)) (replaceRuns b s) = true.
Proof.
  revert b. induction s as [|c t IH]; intros b; simpl; [reflexivity|].
  destruct (isWhiteSpace c) eqn:W.
  - destruct b; simpl; apply IH.
  - simpl. now rewrite W, IH.
Qed.

Lemma replaceRuns_length (b : bool) (s : jsstring) :
  (List.length (replaceRuns b s) <= List.length s)%nat.
Proof.
  revert b. induction s as [|c t IH]; intros b; simpl; [lia|].
  destruct (isWhiteSpace c).
  - destruct b; simpl; [specialize (IH true); lia|specialize (IH true); lia].
  - simpl. specialize (IH false). lia.
Qed.

(** X3: whatever the query, the encyclopedia URL holds no white space at
    all and is no longer than the article path plus the query; replacing
    white space a second time changes nothing. *)
Theorem article_url_has_no_whitespace (Q : jsstring) (r : SearchResult)
  (rest : list SearchResult) :
  generateSearchResults Q = Some (r :: rest) ->
  forallb (fun c => negb (isWhiteSpace c)) (url r) = true /\
  (List.length (url r) <=
   List.length (lit "https://en.wikipedia.org/wiki/") + List.length Q)%nat /\
  replaceWhitespace (replaceWhitespace Q) = replaceWhitespace Q.
Proof.
  unfold generateSearchResults.
  destruct (encodeURIComponent Q) as [e|]; [|discriminate].
  intros G.
  assert (U : url r = lit "https://en.wikipedia.org/wiki/" ++ replaceWhitespace Q)
    by (injection G as <- _; reflexivity).
  rewrite U. clear G U. split; [|split].
  - rewrite forallb_app. unfold replaceWhitespace.
    now rewrite replaceRuns_no_whitespace.
  - rewrite length_app. pose proof (replaceRuns_length false Q).
    unfold replaceWhitespace. lia.
  - unfold replaceWhitespace at 1. apply replaceRuns_verbatim.
    apply replaceRuns_no_whitespace.
Qed.

Lemma article_url_has_no_whitespace_witness :
  exists r rest,
    generateSearchResults (lit "web   development ") = Some (r :: rest) /\
    url r = lit "https://en.wikipedia.org/wiki/web_development_" /\
    forallb (fun c => negb (isWhiteSpace c)) (url r) = true.
Proof.
  destruct (generateSearchResults (lit "web   development ")) as [[|r rest]|] eqn:G;
    try discriminate.
  exists r, rest. split; [reflexivity|].
  split; [now injection G as <- _|].
  exact (proj1 (article_url_has_no_whitespace _ r rest G)).
Defined.

(** X4: in every result set the six ids are pairwise distinct (they are the
    list keys of the view), every URL is an absolute [https://] URL, and
    every title starts with the query as it was given. *)
Theorem result_set_shape (Q : jsstring) (rs : list SearchResult) :
  generateSearchResults Q = Some rs ->
  NoDup (map id rs) /\
  Forall (fun r => startsWith (url r) (lit "https://") = true /\
                   startsWith (title r) Q = true) rs.
Proof.
  unfold generateSearchResults.
  destruct (encodeURIComponent Q) as [e|]; [|discriminate].
  intros [= <-]. split.
  - cbn [map id].
    repeat (apply NoDup_cons; [simpl; intuition discriminate|]).
    apply NoDup_nil.
  - repeat (apply Forall_cons;
            [cbn [url title]; split; [reflexivity|apply startsWith_app]|]).
    apply Forall_nil.
Qed.

Lemma result_set_shape_witness :
  exists rs, generateSearchResults (lit "photography") = Some rs /\
             NoDup (map id rs).
Proof.
  destruct (generateSearchResults (lit "photography")) as [rs|] eqn:G;
    [|discriminate].
  exists rs. split; [reflexivity|].
  exact (proj1 (result_set_shape (lit "photography") rs G)).
Defined.

Lemma encodeURIComponent_unreserved (s : jsstring) :
  forallb isUnreserved s = true -> encodeURIComponent s = Some s.
Proof.
  induction s as [|c t IH]; simpl; [reflexivity|].
  rewrite andb_true_iff. intros [Hc Ht]. now rewrite Hc, IH.
Qed.

(** X5: a query made only of letters, digits and [- _ . ! ~ * ' ( )] is
    neither escaped nor rewritten: all six URLs hold it exactly as typed. *)
Theorem plain_query_is_verbatim (Q : jsstring) :
  forallb isUnreserved Q = true ->
  option_map (map url) (generateSearchResults Q) =
  Some [lit "https://en.wikipedia.org/wiki/" ++ Q;
        lit "https://www.youtube.com/results?search_query=" ++ Q ++ lit "+tutorial";
        lit "https://www.khanacademy.org/search?page_search_query=" ++ Q;
        lit "https://www.coursera.org/search?query=" ++ Q;
        lit "https://www.reddit.com/search/?q=" ++ Q;
        lit "https://scholar.google.com/scholar?q=" ++ Q].
Proof.
  intros U. unfold generateSearchResults.
  rewrite (encodeURIComponent_unreserved Q U). cbn [option_map map url].
  unfold replaceWhitespace. rewrite replaceRuns_verbatim; [reflexivity|].
  apply (forallb_impl isUnreserved); [|exact U].
  intros c Hc. destruct (isWhiteSpace c) eqn:W; [|reflexivity].
  now rewrite (whitespace_not_unreserved c W) in Hc.
Qed.

Lemma plain_query_is_verbatim_witness :
  option_map (map url) (generateSearchResults (lit "C*_(x)")) =
  Some [lit "https://en.wikipedia.org/wiki/C*_(x)";
        lit "https://www.youtube.com/results?search_query=C*_(x)+tutorial";
        lit "https://www.khanacademy.org/search?page_search_query=C*_(x)";
        lit "https://www.coursera.org/search?query=C*_(x)";
        lit "https://www.reddit.com/search/?q=C*_(x)";
        lit "https://scholar.google.com/scholar?q=C*_(x)"].
Proof.
  exact (plain_query_is_verbatim (lit "C*_(x)") eq_refl).
Defined.

End ArticleLink.

(** *** Searches from dispatch to completion *)

Section Completion.

(** X6: [handleSearch] leaves the world as it is exactly for the queries
    that are empty or all white space; any other query changes it. *)
Theorem handleSearch_noop_iff (q : jsstring) (w : World) :
  handleSearch q w = w <-> blank q = true.
Proof.
  split; [|apply handleSearch_blank].
  destruct (blank q) eqn:B; [reflexivity|].
  rewrite (handleSearch_dispatch q w B). intros H.
  apply (f_equal trace), (f_equal (@List.length _)) in H.
  cbn [trace] in H. rewrite !length_app in H. simpl in H. lia.
Qed.

(** X7: a query with content and an unpaired surrogate passes the guard,
    and the search never completes: once the delay is over the loading flag
    is still true and stays true, the results are the old ones, and the
    only effect of the continuation is the unhandled error; no notice is
    shown and nothing is spoken. *)
Theorem illformed_search_stays_loading (q : jsstring) (w : World) (d d' : N) :
  blank q = false -> isWellFormed q = false -> timers w = [] -> 1000 <= d ->
  isLoading (state (elapse d (handleSearch q w))) = true /\
  isLoading (state (elapse d' (elapse d (handleSearch q w)))) = true /\
  searchResults (state (elapse d (handleSearch q w))) = searchResults (state w) /\
  timers (elapse d (handleSearch q w)) = [] /\
  trace (elapse d' (elapse d (handleSearch q w))) =
    trace w ++ [SetIsLoading true; SetTimeout 1000; UnhandledURIError].
Proof.
  intros B WF T D. pose proof (illFormed_throws q WF) as G.
  rewrite (handleSearch_dispatch q w B), T. cbn [app].
  assert (E : elapse d
    {| state := {| searchQuery := searchQuery (state w);
                   isListening := isListening (state w);
                   searchResults := searchResults (state w);
                   isLoading := true;
                   recognition := recognition (state w) |};
       window := window w; now := now w;
       timers := [{| due := now w + 1000; pendingQuery := q |}];
       trace := (trace w ++ [SetIsLoading true]) ++ [SetTimeout 1000] |} =
    {| state := {| searchQuery := searchQuery (state w);
                   isListening := isListening (state w);
                   searchResults := searchResults (state w);
                   isLoading := true;
                   recognition := recognition (state w) |};
       window := window w; now := now w + d;
       timers := [];
       trace := ((trace w ++ [SetIsLoading true]) ++ [SetTimeout 1000]) ++
                [UnhandledURIError] |}).
  { unfold elapse. cbn [timers now List.length].
    rewrite (runUntil_one _ {| due := now w + 1000; pendingQuery := q |});
      [|reflexivity|cbn [due]; lia].
    unfold fireTimer, handleSearchResume. cbn [pendingQuery]. rewrite G.
    reflexivity. }
  rewrite E. unfold elapse. cbn. rewrite <- !app_assoc. repeat split.
Qed.

Lemma illformed_search_stays_loading_witness :
  isLoading (state (elapse 5000 (handleSearch (lit "a" ++ loneSurrogate) mounted)))
  = true.
Proof.
  assert (D : 1000 <= 5000) by discriminate.
  exact (proj1 (illformed_search_stays_loading (lit "a" ++ loneSurrogate)
                  mounted 5000 0 eq_refl eq_refl eq_refl D)).
Defined.

(** X8: the search never writes the query cell or the listening flag,
    whatever the query and however long one waits: a search started from a
    quick pick or from a transcript leaves the text of the box to its other
    writers. *)
Theorem search_keeps_query_and_listening (q : jsstring) (d : N) (w : World) :
  searchQuery (state (elapse d (handleSearch q w))) = searchQuery (state w) /\
  isListening (state (elapse d (handleSearch q w))) = isListening (state w) /\
  recognition (state (elapse d (handleSearch q w))) = recognition (state w).
Proof.
  destruct (elapse_cells d (handleSearch q w)) as (-> & -> & _).
  destruct (handleSearch_cells q w) as (-> & -> & _).
  repeat split. unfold elapse. cbn [state].
  now rewrite runUntil_recognition, handleSearch_recognition.
Qed.

(** X9: after any history of events, a search for a well-formed query with
    content settles within its delay, and then its results are the ones
    shown, whatever other searches were pending when it was dispatched. *)
Theorem latest_search_wins (es : list Event) (win : Window) (q : jsstring) (d : N) :
  blank q = false -> isWellFormed q = true -> 1000 <= d ->
  timers (elapse d (handleSearch q (run es (mount win)))) = [] /\
  Some (searchResults (state (elapse d (handleSearch q (run es (mount win)))))) =
    generateSearchResults q /\
  isLoading (state (elapse d (handleSearch q (run es (mount win))))) = false.
Proof.
  intros B WF D.
  destruct (settle_bounded q d (run es (mount win))) as (rs & G & _ & T & R & L & _);
    [apply run_timersBounded, mount_timersBounded|exact B|exact WF|exact D|].
  rewrite T, R, L, G. repeat split.
Qed.

Lemma latest_search_wins_witness :
  Some (searchResults (state
    (elapse 1000 (handleSearch (lit "cooking")
       (run [QuickPick Photography; Elapse 10; Change (lit "x"); Submit; Elapse 20]
            mounted))))) =
  generateSearchResults (lit "cooking").
Proof.
  assert (D : 1000 <= 1000) by discriminate.
  destruct (latest_search_wins
              [QuickPick Photography; Elapse 10; Change (lit "x"); Submit; Elapse 20]
              fullBrowser (lit "cooking") 1000 eq_refl eq_refl D) as (_ & R & _).
  exact R.
Defined.

(** X10: after any history of events, once a full delay has passed with no
    new search, no search is pending any more. *)
Theorem searches_settle_within_delay (es : list Event) (win : Window) (d : N) :
  1000 <= d -> timers (run (es ++ [Elapse d]) (mount win)) = [].
Proof.
  intros D. rewrite run_app. unfold run at 1. cbn [fold_left step].
  pose proof (run_timersBounded es (mount win) (mount_timersBounded win)) as B.
  unfold elapse. cbn [timers]. apply runUntil_drains; [|lia].
  eapply Forall_impl; [|exact B]. simpl. intros t H. lia.
Qed.

Lemma searches_settle_within_delay_witness :
  timers (run ([QuickPick Cooking; Elapse 400; QuickPick Photography] ++ [Elapse 1000])
              mounted) = [].
Proof.
  assert (D : 1000 <= 1000) by discriminate.
  exact (searches_settle_within_delay
           [QuickPick Cooking; Elapse 400; QuickPick Photography] fullBrowser 1000 D).
Defined.

End Completion.

(** *** Invariants of the component *)

Section Invariants.

Lemma handleSearchResume_fromSynthesizer (q : jsstring) (w : World) :
  fromSynthesizer (state w) -> fromSynthesizer (state (handleSearchResume q w)).
Proof.
  intros H. destruct (generateSearchResults q) as [rs|] eqn:G.
  - right. exists q. now destruct (handleSearchResume_done q rs w G) as [-> _].
  - now rewrite (handleSearchResume_thrown q w G).
Qed.

Lemma handleSearch_fromSynthesizer (q : jsstring) (w : World) :
  fromSynthesizer (state w) -> fromSynthesizer (state (handleSearch q w)).
Proof.
  unfold fromSynthesizer.
  now destruct (handleSearch_cells q w) as (_ & _ & ->).
Qed.

Lemma step_fromSynthesizer (e : Event) (w : World) :
  fromSynthesizer (state w) -> fromSynthesizer (state (step e w)).
Proof.
  intros H. destruct e; simpl; try exact H.
  - unfold onSearchSubmit, andThen. now apply handleSearch_fromSynthesizer.
  - unfold micClick, stopVoiceRecognition, startVoiceRecognition.
    destruct (isListening (state w)), (recognition (state w)); exact H.
  - now apply handleSearch_fromSynthesizer.
  - unfold speakButtonClick, andThen.
    now destruct (speakResult_frame (snippet r) (emit StopPropagation w)) as [-> _].
  - unfold readResultsClick.
    now destruct (speakResult_frame
      (summary (List.length (searchResults (state w))) (searchQuery (state w))) w)
      as [-> _].
  - unfold onresult, andThen. now apply handleSearch_fromSynthesizer.
  - unfold elapse. cbn [state].
    apply runUntil_state; [apply handleSearchResume_fromSynthesizer|exact H].
Qed.

Lemma run_fromSynthesizer (es : list Event) (w : World) :
  fromSynthesizer (state w) -> fromSynthesizer (state (run es w)).
Proof.
  unfold run. revert w. induction es as [|e es IH]; intros w Hw; simpl; [exact Hw|].
  apply IH, step_fromSynthesizer, Hw.
Qed.

(** X11: after any history of events the results are either the initial
    empty list or exactly what the synthesizer returns for some query, never
    a partial or merged list; so whenever the results panel is shown it
    lists six results, and the empty state with the quick picks is hidden. *)
Theorem results_empty_or_synthesized (es : list Event) (win : Window) :
  (searchResults (state (run es (mount win))) = [] \/
   exists q, generateSearchResults q =
             Some (searchResults (state (run es (mount win))))) /\
  (showsResults (run es (mount win)) = true ->
   List.length (searchResults (state (run es (mount win)))) = 6%nat /\
   showsEmptyState (run es (mount win)) = false).
Proof.
  assert (H : fromSynthesizer (state (run es (mount win)))).
  { apply run_fromSynthesizer. left. unfold mount, initialise. simpl.
    now destruct (hasSpeechRecognition win). }
  split; [exact H|]. unfold showsResults, showsEmptyState. intros S.
  destruct H as [H|[q G]].
  - rewrite H in S. discriminate.
  - apply generateSearchResults_length in G. rewrite G. simpl.
    now rewrite andb_false_r.
Qed.

Lemma results_empty_or_synthesized_witness :
  List.length (searchResults (state
    (run [QuickPick Cooking; Elapse 1000] (mount fullBrowser)))) = 6%nat.
Proof.
  exact (proj1 (proj2 (results_empty_or_synthesized
                         [QuickPick Cooking; Elapse 1000] fullBrowser) eq_refl)).
Defined.

Lemma step_isListening (e : Event) (w : World) :
  recognitionEvent e = false ->
  isListening (state (step e w)) = isListening (state w).
Proof.
  destruct e; simpl; intros R; try discriminate; try reflexivity.
  - unfold onSearchSubmit, andThen.
    now destruct (handleSearch_cells
      (searchQuery (state (emit PreventDefault w))) (emit PreventDefault w))
      as (_ & -> & _).
  - unfold micClick, stopVoiceRecognition, startVoiceRecognition.
    destruct (isListening (state w)) eqn:L, (recognition (state w));
      simpl; congruence.
  - now destruct (handleSearch_cells (topicQuery topic) w) as (_ & -> & _).
  - unfold speakButtonClick, andThen.
    now destruct (speakResult_frame (snippet r) (emit StopPropagation w)) as [-> _].
  - unfold readResultsClick.
    now destruct (speakResult_frame
      (summary (List.length (searchResults (state w))) (searchQuery (state w))) w)
      as [-> _].
  - apply elapse_cells.
Qed.

(** X12: only the events of the recognition session change the listening
    flag.  Typing, submitting, the quick picks, the clicks on results, time
    passing, and the microphone button itself leave it alone: the button
    only asks the platform to start or stop. *)
Theorem only_recognition_events_change_listening (es : list Event) (w : World) :
  forallb (fun e => negb (recognitionEvent e)) es = true ->
  isListening (state (run es w)) = isListening (state w).
Proof.
  unfold run. revert w. induction es as [|e es IH]; intros w; simpl; [reflexivity|].
  rewrite andb_true_iff, negb_true_iff. intros [He Hes].
  now rewrite IH, step_isListening.
Qed.

Lemma only_recognition_events_change_listening_witness :
  isListening (state (run [MicClick; Change (lit "a"); Submit; Elapse 2000; MicClick]
                          mounted)) = false.
Proof.
  exact (only_recognition_events_change_listening
           [MicClick; Change (lit "a"); Submit; Elapse 2000; MicClick]
           mounted eq_refl).
Defined.

Lemma step_searchQuery (e : Event) (w : World) :
  writesQuery e = false ->
  searchQuery (state (step e w)) = searchQuery (state w).
Proof.
  destruct e; simpl; intros R; try discriminate; try reflexivity.
  - unfold onSearchSubmit, andThen.
    now destruct (handleSearch_cells
      (searchQuery (state (emit PreventDefault w))) (emit PreventDefault w))
      as (-> & _).
  - unfold micClick, stopVoiceRecognition, startVoiceRecognition.
    destruct (isListening (state w)) eqn:L, (recognition (state w));
      simpl; congruence.
  - now destruct (handleSearch_cells (topicQuery topic) w) as (-> & _).
  - unfold speakButtonClick, andThen.
    now destruct (speakResult_frame (snippet r) (emit StopPropagation w)) as [-> _].
  - unfold readResultsClick.
    now destruct (speakResult_frame
      (summary (List.length (searchResults (state w))) (searchQuery (state w))) w)
      as [-> _].
  - apply elapse_cells.
Qed.

(** X13: the query cell is written only by typing and by a transcript.  A
    quick pick searches its topic without putting it in the box, so after
    quick picks alone the query is still what it was. *)
Theorem only_typing_and_transcripts_change_query (es : list Event) (w : World) :
  forallb (fun e => negb (writesQuery e)) es = true ->
  searchQuery (state (run es w)) = searchQuery (state w).
Proof.
  unfold run. revert w. induction es as [|e es IH]; intros w; simpl; [reflexivity|].
  rewrite andb_true_iff, negb_true_iff. intros [He Hes].
  now rewrite IH, step_searchQuery.
Qed.

Lemma only_typing_and_transcripts_change_query_witness :
  searchQuery (state (run [QuickPick Cooking; Elapse 1000; ReadResultsClick] mounted))
  = [].
Proof.
  exact (only_typing_and_transcripts_change_query
           [QuickPick Cooking; Elapse 1000; ReadResultsClick] mounted eq_refl).
Defined.

End Invariants.

(** *** From the controls to the results *)

Section EndToEnd.

(** X14: typing a well-formed query with content and submitting it, after
    any history of events, ends within the delay with that query in the box,
    its six results shown and the loading flag down. *)
Theorem typed_submit_searches (es : list Event) (win : Window) (v : jsstring)
  (d : N) :
  blank v = false -> isWellFormed v = true -> 1000 <= d ->
  searchQuery (state (run (es ++ [Change v; Submit; Elapse d]) (mount win))) = v /\
  Some (searchResults
          (state (run (es ++ [Change v; Submit; Elapse d]) (mount win)))) =
    generateSearchResults v /\
  isLoading (state (run (es ++ [Change v; Submit; Elapse d]) (mount win))) = false /\
  timers (run (es ++ [Change v; Submit; Elapse d]) (mount win)) = [].
Proof.
  intros B WF D. rewrite run_app.
  set (w := run es (mount win)).
  assert (Bw : timersBounded w)
    by apply run_timersBounded, mount_timersBounded.
  set (w1 := emit PreventDefault (setSearchQuery v w)).
  assert (B1 : timersBounded w1) by exact Bw.
  change (run [Change v; Submit; Elapse d] w) with (elapse d (handleSearch v w1)).
  destruct (settle_bounded v d w1 B1 B WF D) as (rs & G & _ & T & R & L & Q & _).
  rewrite T, R, L, Q, G. repeat split.
Qed.

Lemma typed_submit_searches_witness :
  searchQuery (state (run ([QuickPick Cooking] ++
     [Change (lit "web development"); Submit; Elapse 1000]) mounted)) =
  lit "web development".
Proof.
  assert (D : 1000 <= 1000) by discriminate.
  exact (proj1 (typed_submit_searches [QuickPick Cooking] fullBrowser
                  (lit "web development") 1000 eq_refl eq_refl D)).
Defined.

(** X15: a recognition session that starts, delivers a well-formed
    transcript with content and ends, after any history of events, leaves
    the component not listening, with the transcript in the box and, once
    the delay is over, the results for the transcript shown. *)
Theorem spoken_query_searches (es : list Event) (win : Window) (t : jsstring)
  (d : N) :
  blank t = false -> isWellFormed t = true -> 1000 <= d ->
  let w := run (es ++ [RecognitionStarted; RecognitionResult t;
                       RecognitionEnded; Elapse d]) (mount win) in
  isListening (state w) = false /\ searchQuery (state w) = t /\
  Some (searchResults (state w)) = generateSearchResults t /\
  isLoading (state w) = false.
Proof.
  intros B WF D w. subst w. rewrite run_app.
  set (w := run es (mount win)).
  assert (Bw : timersBounded w)
    by apply run_timersBounded, mount_timersBounded.
  set (w1 := setSearchQuery t (onstart w)).
  assert (B1 : timersBounded w1) by exact Bw.
  change (run [RecognitionStarted; RecognitionResult t; RecognitionEnded; Elapse d] w)
    with (elapse d (onend (handleSearch t w1))).
  destruct (elapse_cells d (onend (handleSearch t w1))) as (-> & -> & _).
  change (isListening (state (onend (handleSearch t w1)))) with false.
  change (searchQuery (state (onend (handleSearch t w1))))
    with (searchQuery (state (handleSearch t w1))).
  destruct (handleSearch_cells t w1) as (-> & _).
  split; [reflexivity|]. split; [reflexivity|].
  destruct (generateSearchResults_returns t WF) as (rs & G & _).
  rewrite (handleSearch_dispatch t w1 B).
  unfold onend, setIsListening, andThen, emit, modify.
  cbn [state window now timers trace searchQuery isListening searchResults
       isLoading recognition].
  unfold elapse. cbn [state timers now].
  replace (List.length (timers w1 ++ [{| due := now w1 + 1000; pendingQuery := t |}]))
    with (S (List.length (timers w1))) by (rewrite length_app; simpl; lia).
  match goal with |- context [runUntil _ _ ?x] => set (w2 := x) end.
  destruct (runUntil_last (List.length (timers w1)) (timers w1)
              {| due := now w1 + 1000; pendingQuery := t |} (now w1 + d) w2)
    as (w0 & R & _); [reflexivity|reflexivity|exact B1|simpl; lia|].
  rewrite R. cbn [pendingQuery].
  destruct (handleSearchResume_done t rs w0 G) as [-> ->]. now rewrite G.
Qed.

Lemma spoken_query_searches_witness :
  searchQuery (state (run ([] ++ [RecognitionStarted; RecognitionResult (lit "cooking");
                                  RecognitionEnded; Elapse 1000]) mounted)) =
  lit "cooking".
Proof.
  assert (D : 1000 <= 1000) by discriminate.
  destruct (spoken_query_searches [] fullBrowser (lit "cooking") 1000
              eq_refl eq_refl D) as (_ & Q & _).
  exact Q.
Defined.

Lemma topicQuery_searchable (topic : Topic) :
  blank (topicQuery topic) = false /\ isWellFormed (topicQuery topic) = true.
Proof. destruct topic; split; reflexivity. Qed.

(** X16: each of the four quick picks, after any history of events, ends
    within the delay with the six results of its topic shown, and leaves the
    text of the box as it was. *)
Theorem quick_pick_searches (es : list Event) (win : Window) (topic : Topic)
  (d : N) :
  1000 <= d ->
  exists rs,
    generateSearchResults (topicQuery topic) = Some rs /\
    List.length rs = 6%nat /\
    searchResults (state (run (es ++ [QuickPick topic; Elapse d]) (mount win))) = rs /\
    isLoading (state (run (es ++ [QuickPick topic; Elapse d]) (mount win))) = false /\
    searchQuery (state (run (es ++ [QuickPick topic; Elapse d]) (mount win))) =
      searchQuery (state (run es (mount win))).
Proof.
  intros D. rewrite run_app.
  change (run [QuickPick topic; Elapse d] (run es (mount win)))
    with (elapse d (handleSearch (topicQuery topic) (run es (mount win)))).
  destruct (topicQuery_searchable topic) as [B WF].
  destruct (settle_bounded (topicQuery topic) d (run es (mount win)))
    as (rs & G & Len & _ & R & L & Q & _);
    [apply run_timersBounded, mount_timersBounded|exact B|exact WF|exact D|].
  exists rs. auto.
Qed.

Lemma quick_pick_searches_witness :
  exists rs,
    searchResults (state (run ([Change (lit "x")] ++
                               [QuickPick MachineLearning; Elapse 1500]) mounted)) = rs /\
    List.length rs = 6%nat.
Proof.
  assert (D : 1000 <= 1500) by discriminate.
  destruct (quick_pick_searches [Change (lit "x")] fullBrowser MachineLearning 1500 D)
    as (rs & _ & Len & R & _).
  exists rs. split; [exact R|exact Len].
Defined.

(** X17: the "Read Results" button speaks the count of the results shown
    and the text of the box, not the query that was searched: after a
    search for [q] has settled it says "Found 6 learning resources for"
    followed by whatever the box held when the search was dispatched. *)
Theorem read_results_speaks_the_box (es : list Event) (win : Window)
  (q : jsstring) (d : N) :
  hasSpeechSynthesis win = true ->
  blank q = false -> isWellFormed q = true -> 1000 <= d ->
  trace (readResultsClick (elapse d (handleSearch q (run es (mount win))))) =
  trace (elapse d (handleSearch q (run es (mount win)))) ++
  [Speak (utterance (summary 6 (searchQuery (state (run es (mount win))))))].
Proof.
  intros S B WF D.
  destruct (settle_bounded q d (run es (mount win)))
    as (rs & G & Len & _ & R & _ & Q & _);
    [apply run_timersBounded, mount_timersBounded|exact B|exact WF|exact D|].
  unfold readResultsClick, speakResult.
  destruct (elapse_cells d (handleSearch q (run es (mount win)))) as (_ & _ & -> & _).
  destruct (handleSearch_clock q (run es (mount win))) as (_ & -> & _).
  rewrite run_window, mount_window, S, R, Len, Q. reflexivity.
Qed.

Lemma read_results_speaks_the_box_witness :
  exists pre,
    trace (readResultsClick
             (elapse 1000 (handleSearch (lit "cooking") (run [] (mount fullBrowser))))) =
    pre ++ [Speak (utterance (lit
      "Found 6 learning resources for . Click any result to start learning!"))].
Proof.
  assert (D : 1000 <= 1000) by discriminate.
  eexists.
  rewrite (read_results_speaks_the_box [] fullBrowser (lit "cooking") 1000
             eq_refl eq_refl eq_refl D).
  reflexivity.
Defined.

End EndToEnd.

(** *** The microphone button and the result cards *)

Section Controls.

Lemma generateSearchResults_https (q : jsstring) (rs : list SearchResult) :
  generateSearchResults q = Some rs ->
  Forall (fun r => startsWith (url r) (lit "https://") = true) rs.
Proof.
  unfold generateSearchResults.
  destruct (encodeURIComponent q) as [e|]; [|discriminate].
  intros [= <-]. repeat (apply Forall_cons; [reflexivity|]). apply Forall_nil.
Qed.

(** X18: in a browser with speech recognition, after any history of events
    the handle is still the one configured at mount (single utterance, final
    results only, en-US), and a click on the microphone button changes no
    state and shows no notice: it calls [start] when the component is not
    listening and [stop] when it is. *)
Theorem supported_mic_click (win : Window) (es : list Event) :
  hasSpeechRecognition win = true ->
  recognition (state (run es (mount win))) = Some newRecognition /\
  continuous newRecognition = false /\ interimResults newRecognition = false /\
  lang newRecognition = lit "en-US" /\
  state (step MicClick (run es (mount win))) = state (run es (mount win)) /\
  trace (step MicClick (run es (mount win))) =
    trace (run es (mount win)) ++
    [if isListening (state (run es (mount win)))
     then RecognitionStop else RecognitionStart].
Proof.
  intros H.
  assert (R : recognition (state (run es (mount win))) = Some newRecognition).
  { rewrite run_recognition. unfold mount, initialise. simpl. now rewrite H. }
  split; [exact R|]. repeat (split; [reflexivity|]).
  simpl. unfold micClick, stopVoiceRecognition, startVoiceRecognition.
  rewrite R. destruct (isListening (state (run es (mount win)))); split; reflexivity.
Qed.

Lemma supported_mic_click_witness :
  trace (step MicClick (run [RecognitionStarted] (mount fullBrowser))) =
  trace (run [RecognitionStarted] (mount fullBrowser)) ++ [RecognitionStop].
Proof.
  destruct (supported_mic_click fullBrowser [RecognitionStarted] eq_refl)
    as (_ & _ & _ & _ & _ & T).
  exact T.
Defined.

(** X19: after any history of events, a click on a card of the result list
    opens that card's URL, which is an absolute [https://] URL, in a new tab
    without opener or referrer, shows the "Opening Resource" notice, and
    changes neither the state nor the pending searches. *)
Theorem card_click_opens_https (es : list Event) (win : Window) (r : SearchResult) :
  In r (searchResults (state (run es (mount win)))) ->
  startsWith (url r) (lit "https://") = true /\
  trace (step (CardClick r) (run es (mount win))) =
    trace (run es (mount win)) ++
    [WindowOpen (url r) (lit "_blank") (lit "noopener,noreferrer");
     Toast (lit "Opening Resource")
           (lit "Opening " ++ title r ++ lit " in a new tab") Default] /\
  state (step (CardClick r) (run es (mount win))) = state (run es (mount win)) /\
  timers (step (CardClick r) (run es (mount win))) = timers (run es (mount win)).
Proof.
  intros I. split.
  - assert (H : fromSynthesizer (state (run es (mount win)))).
    { apply run_fromSynthesizer. left. unfold mount, initialise. simpl.
      now destruct (hasSpeechRecognition win). }
    destruct H as [H|[q G]]; [rewrite H in I; destruct I|].
    pose proof (generateSearchResults_https q _ G) as F.
    rewrite Forall_forall in F. now apply F.
  - simpl. rewrite <- app_assoc. repeat split.
Qed.

Lemma card_click_opens_https_witness :
  exists r,
    In r (searchResults (state (run [QuickPick Cooking; Elapse 1000] (mount fullBrowser))))
    /\ url r = lit "https://en.wikipedia.org/wiki/cooking"
    /\ startsWith (url r) (lit "https://") = true.
Proof.
  destruct (searchResults (state (run [QuickPick Cooking; Elapse 1000] (mount fullBrowser))))
    as [|r rest] eqn:E; [discriminate|].
  assert (I : In r (searchResults
                      (state (run [QuickPick Cooking; Elapse 1000] (mount fullBrowser)))))
    by (rewrite E; now left).
  exists r. split; [now left|]. split; [now injection E as <- _|].
  exact (proj1 (card_click_opens_https [QuickPick Cooking; Elapse 1000]
                  fullBrowser r I)).
Defined.

End Controls.
